(** * Voice-command interpretation and webhook transport of the Hue remote

    A shallow embedding of the extended home screen of the application
    (the richer of its two screens) and of the [sendCommand] transport of
    both screens, followed by the properties of the command interpreter
    and of the transport.

    Strings are JavaScript strings whose code units lie in 0..255 (the
    Latin-1 range); a character is an [ascii], read as its code unit. *)

From Stdlib Require Import String Ascii List Bool NArith Arith Lia.
From Stdlib Require Import DecimalString.
Import ListNotations.
Local Open Scope string_scope.
Local Open Scope bool_scope.

(** ** JavaScript string primitives *)

Module JsString.

Definition code (c : ascii) : N := N_of_ascii c.

Definition between (lo hi : N) (c : ascii) : bool :=
  ((lo <=? code c) && (code c <=? hi))%N.

(** Letters with a lower-case partner inside Latin-1: A-Z, and the
    accented capitals U+00C0..U+00DE without the multiplication sign. *)
Definition isUpper (c : ascii) : bool :=
  between 65 90 c || between 192 214 c || between 216 222 c.

(** Their partners: a-z, and U+00E0..U+00FE without the division sign. *)
Definition isLower (c : ascii) : bool :=
  between 97 122 c || between 224 246 c || between 248 254 c.

Definition lowerChar (c : ascii) : ascii :=
  if isUpper c then ascii_of_N (code c + 32) else c.

(** [String.prototype.toLowerCase]. *)
Fixpoint toLowerCase (s : string) : string :=
  match s with
  | EmptyString => EmptyString
  | String c s' => String (lowerChar c) (toLowerCase s')
  end.

(** The white space and line terminators of ECMAScript below U+0100:
    TAB, LF, VT, FF, CR, SP and NBSP. *)
Definition isWhiteSpace (c : ascii) : bool :=
  between 9 13 c || (code c =? 32)%N || (code c =? 160)%N.

Fixpoint trimStart (s : string) : string :=
  match s with
  | EmptyString => EmptyString
  | String c s' => if isWhiteSpace c then trimStart s' else s
  end.

Fixpoint trimEnd (s : string) : string :=
  match s with
  | EmptyString => EmptyString
  | String c s' =>
      match trimEnd s' with
      | EmptyString => if isWhiteSpace c then EmptyString
                       else String c EmptyString
      | t => String c t
      end
  end.

(** [String.prototype.trim]. *)
Definition trim (s : string) : string := trimEnd (trimStart s).

(** [String.prototype.includes]: [includes p s] is [s.includes(p)]. *)
Fixpoint includes (p s : string) : bool :=
  prefix p s ||
  match s with
  | EmptyString => false
  | String _ s' => includes p s'
  end.

(** JavaScript truthiness of a string: non-empty. *)
Definition truthy (s : string) : bool :=
  match s with EmptyString => false | _ => true end.

(** [Array.prototype.some] over a list of strings. *)
Definition some (f : string -> bool) (l : list string) : bool := existsb f l.

(** *** Regular expressions with the [i] flag

    The patterns of the program are alternations of literals.  Under the
    [i] flag (without [u]) two characters match when their canonical
    forms agree, the canonical form being the upper-case partner; a
    character whose upper-case form leaves Latin-1 or is not a single
    character (y with diaeresis, micro sign, sharp s) is its own
    canonical form here, since no other character of the range shares
    it. *)
Definition canonicalize (c : ascii) : ascii :=
  if isLower c then ascii_of_N (code c - 32) else c.

Fixpoint prefix_i (p s : string) : bool :=
  match p, s with
  | EmptyString, _ => true
  | String _ _, EmptyString => false
  | String a p', String b s' =>
      Ascii.eqb (canonicalize a) (canonicalize b) && prefix_i p' s'
  end.

Fixpoint includes_i (p s : string) : bool :=
  prefix_i p s ||
  match s with
  | EmptyString => false
  | String _ s' => includes_i p s'
  end.

(** [s.match(/(a1|...|an)/i)] is non-null: some alternative occurs in
    [s], case-insensitively. *)
Definition matches_i (alternatives : list string) (s : string) : bool :=
  existsb (fun a => includes_i a s) alternatives.

End JsString.

Import JsString.

(** ** The extended home screen: vocabulary tables *)

(** [COLOR_VARIATIONS]: an object literal, enumerated in insertion
    order by [Object.entries] and [Object.values]. *)
Definition COLOR_VARIATIONS : list (string * list string) :=
  [ ("red",    ["red"; "crimson"; "scarlet"]);
    ("blue",   ["blue"; "azure"; "navy"]);
    ("green",  ["green"; "emerald"; "lime"]);
    ("yellow", ["yellow"; "golden"; "amber"]);
    ("white",  ["white"; "bright"; "light"]);
    ("black",  ["black"; "dark"; "midnight"]);
    ("purple", ["purple"; "violet"; "lavender"]);
    ("orange", ["orange"; "tangerine"]);
    ("pink",   ["pink"; "rose"; "magenta"]) ].

Definition colorPhrases : list string :=
  [ "change to"; "switch to"; "make it"; "set to"; "set it to";
    "change the color to"; "set the color to"; "turn it"; "set light to";
    "change light to"; "make the light" ].

(** [Object.values(COLOR_VARIATIONS).flat()]. *)
Definition allVariations : list string :=
  flat_map snd COLOR_VARIATIONS.

(** The action names sent to the webhook; [NoAction] is the initial,
    falsy value of the local [action]. *)
Definition TurnOn : string := "turn_on".
Definition TurnOff : string := "turn_off".
Definition SetColor : string := "set_color".
Definition SetBrightness : string := "set_brightness".
Definition NoAction : string := "".

(** The two locals of [processVoiceCommand]: [action] and [color]. *)
Record Command : Type := mkCommand { action : string; color : string }.

(** The optional parameter of a command: the local [color] when truthy,
    as [sendCommand] and the feedback message test it. *)
Definition parameter (c : Command) : option string :=
  if truthy (color c) then Some (color c) else None.

(** ** The extended home screen: [processVoiceCommand] *)

(** [/turn (on|off)/i], with the group expanded. *)
Definition rxTurnOnOff : list string := ["turn on"; "turn off"].
(** [/(on|off)/i]. *)
Definition rxOnOff : list string := ["on"; "off"].
(** [/(bright|dim|brightness)/i]. *)
Definition rxBrightness : list string := ["bright"; "dim"; "brightness"].
(** [/(full|max|maximum|brightest)/i]. *)
Definition rxFull : list string := ["full"; "max"; "maximum"; "brightest"].
(** [/(half|medium|mid)/i]. *)
Definition rxHalf : list string := ["half"; "medium"; "mid"].
(** [/(low|dim|minimum)/i]. *)
Definition rxLow : list string := ["low"; "dim"; "minimum"].

(** Handle power commands. *)
Definition powerStep (command : string) (st : Command) : Command :=
  if matches_i rxTurnOnOff command || matches_i rxOnOff command
  then mkCommand (if includes "off" command then TurnOff else TurnOn) (color st)
  else st.

Definition hasColorCommand (command : string) : bool :=
  some (fun phrase => includes phrase command) colorPhrases
  || includes "color" command
  || some (fun c => includes c command) allVariations.

(** The [for ... of Object.entries(COLOR_VARIATIONS)] loop with its
    [break]. *)
Fixpoint colorLoop (entries : list (string * list string))
    (command : string) (st : Command) : Command :=
  match entries with
  | [] => st
  | (baseColor, variations) :: rest =>
      if some (fun variant => includes variant command) variations
      then mkCommand SetColor baseColor
      else colorLoop rest command st
  end.

(** Handle color commands. *)
Definition colorStep (command : string) (st : Command) : Command :=
  if hasColorCommand command || negb (truthy (action st))
  then colorLoop COLOR_VARIATIONS command st
  else st.

(** Handle brightness commands. *)
Definition brightnessStep (command : string) (st : Command) : Command :=
  if matches_i rxBrightness command then
    if matches_i rxFull command then mkCommand SetBrightness "100"
    else if matches_i rxHalf command then mkCommand SetBrightness "50"
    else if matches_i rxLow command then mkCommand SetBrightness "20"
    else st
  else st.

(** [text.toLowerCase().trim()]. *)
Definition normalize (text : string) : string := trim (toLowerCase text).

(** The decision part of [processVoiceCommand]: the values of [action]
    and [color] when the dispatch on [action] is reached. *)
Definition interpret (text : string) : Command :=
  let command := normalize text in
  brightnessStep command
    (colorStep command (powerStep command (mkCommand NoAction ""))).

(** ** The transport: [sendCommand] of both screens

    The effects of a call are recorded as a trace of events.  The
    [console.log] diagnostics and the timer of the abort controller are
    left out; a request aborted by the timer is a rejected [fetch]. *)

(** A thrown value: an [Error] with its message, or anything else. *)
Inductive Thrown : Type :=
| ErrorObject (message : string)
| OtherThrown.

Inductive Event : Type :=
| SetIsLoading (b : bool)
| SetLastCommand (s : string)
| Fetch (method : string) (headers : list (string * string)) (url : string)
| ConsoleError (label : string) (error : Thrown)
| Alert (title message : string).

(** What the network answers to the one request of a call: the promise
    of [fetch] rejects, or resolves to a response with a status and a
    body, whose reading by [response.text()] may reject in turn. *)
Inductive FetchResult : Type :=
| Rejected (cause : Thrown)
| Response (status : nat) (body : Thrown + string).

(** [response.ok] of the Fetch standard: the status is in 200..299. *)
Definition ok (status : nat) : bool :=
  ((200 <=? status) && (status <=? 299))%nat.

(** [`${response.status}`]. *)
Definition showStatus (status : nat) : string :=
  NilEmpty.string_of_uint (Nat.to_uint status).

(** A computation that appends events to the trace and either returns a
    value or throws. *)
Module Eff.

Definition t (A : Type) : Type := (list Event * (Thrown + A))%type.

Definition ret {A} (a : A) : t A := ([], inr a).

Definition bind {A B} (m : t A) (f : A -> t B) : t B :=
  match m with
  | (tr, inl e) => (tr, inl e)
  | (tr, inr a) => let (tr', r) := f a in ((tr ++ tr')%list, r)
  end.

Definition emit (e : Event) : t unit := ([e], inr tt).

Definition throw {A} (e : Thrown) : t A := ([], inl e).

(** Await a promise that is already settled. *)
Definition await {A} (p : Thrown + A) : t A := ([], p).

(** [try { body } catch (error) { handler } finally { final }], run for
    its trace; neither handler nor final block of the program throws. *)
Definition tryCatchFinally (body : t unit) (handler : Thrown -> list Event)
    (final : list Event) : list Event :=
  match body with
  | (tr, inl e) => (tr ++ handler e ++ final)%list
  | (tr, inr _) => (tr ++ final)%list
  end.

End Eff.

Declare Scope eff_scope.
Delimit Scope eff_scope with eff.
Notation "x <- m ;; k" := (Eff.bind m (fun x => k))
  (at level 61, m at next level, right associativity) : eff_scope.
Notation "m ;; k" := (Eff.bind m (fun _ => k))
  (at level 61, right associativity) : eff_scope.

(** [await fetch(url, {method, headers})]. *)
Definition fetch (net : FetchResult) (method : string)
    (headers : list (string * string)) (url : string)
    : Eff.t (nat * (Thrown + string)) :=
  ([Fetch method headers url],
   match net with
   | Rejected cause => inl cause
   | Response status body => inr (status, body)
   end).

Definition join (sep : string) (l : list string) : string :=
  match l with
  | [] => ""
  | x :: rest => fold_left (fun acc y => acc ++ sep ++ y) rest x
  end.

(** [value || ''] and the truthiness of an optional string. *)
Definition orEmpty (value : option string) : string :=
  match value with Some v => v | None => "" end.

Definition truthyOpt (value : option string) : bool := truthy (orEmpty value).

Section Transport.

(** The component encoder of the platform's [URLSearchParams]. *)
Variable encode : string -> string.

(** [Platform.OS]. *)
Variable OS : string.

(** The state [webhookUrl] captured by the callback. *)
Variable webhookUrl : string.

(** The answer of the network to the request, if one is made. *)
Variable net : FetchResult.

(** [new URLSearchParams(payload).toString()]. *)
Definition queryString (payload : list (string * string)) : string :=
  join "&" (map (fun kv => encode (fst kv) ++ "=" ++ encode (snd kv)) payload).

Definition notWeb : bool := negb (String.eqb OS "web").

(** The guard on a blank [webhookUrl], shared by both screens. *)
Definition missingUrlGuard : list Event :=
  if notWeb then [Alert "Error" "Please set your n8n webhook URL first"]
  else [].

(** *** Extended screen *)

Definition payload (action : string) (value : option string)
    : list (string * string) :=
  if String.eqb action "set_color" && truthyOpt value
  then [("action", action); ("color", orEmpty value)]
  else if String.eqb action "set_brightness" && truthyOpt value
  then [("action", action); ("brightness", orEmpty value)]
  else [("action", action)].

Definition sendCommand (action : string) (value : option string)
    : list Event :=
  if negb (truthy (trim webhookUrl)) then missingUrlGuard
  else
    SetIsLoading true ::
    Eff.tryCatchFinally
      (let queryParams := queryString (payload action value) in
       let urlWithParams := trim webhookUrl ++ "?" ++ queryParams in
       response <- fetch net "GET" [] urlWithParams ;;
       (if negb (ok (fst response))
        then (text <- Eff.await (snd response) ;;
              Eff.throw (ErrorObject
                ("HTTP " ++ showStatus (fst response) ++ ": " ++ text)))
        else Eff.ret tt) ;;
       Eff.emit (SetLastCommand (action ++ " " ++ orEmpty value)))%eff
      (fun error =>
         [ConsoleError "Error sending command:" error;
          Alert "Error"
            "Failed to send command. Please check your webhook URL."])
      [SetIsLoading false].

(** *** Simple screen *)

Definition payloadSimple (action : string) (color : option string)
    : list (string * string) :=
  if truthyOpt color then [("action", action); ("color", orEmpty color)]
  else [("action", action)].

Definition sendCommandSimple (action : string) (color : option string)
    : list Event :=
  if negb (truthy (trim webhookUrl)) then missingUrlGuard
  else
    SetIsLoading true ::
    Eff.tryCatchFinally
      (let queryParams := queryString (payloadSimple action color) in
       let urlWithParams := trim webhookUrl ++ "?" ++ queryParams in
       response <- fetch net "GET" [("Accept", "application/json")]
                     urlWithParams ;;
       if ok (fst response)
       then
         let actionText :=
           if truthyOpt color
           then action ++ " (" ++ orEmpty color ++ ")" else action in
         if notWeb
         then Eff.emit (Alert "Success" ("Command sent: " ++ actionText))
         else Eff.ret tt
       else
         let errorText :=
           match snd response with
           | inr text => text
           | inl _ => "Unknown error"
           end in
         Eff.throw (ErrorObject
           ("HTTP " ++ showStatus (fst response) ++ ": " ++ errorText)))%eff
      (fun error =>
         ConsoleError "Error sending command:" error ::
         (if notWeb
          then
            let errorMessage :=
              match error with
              | ErrorObject message => message
              | OtherThrown => "Unknown error"
              end in
            [Alert "Error" ("Failed to send command: " ++ errorMessage)]
          else []))
      [SetIsLoading false].

End Transport.

(** The serializer of the URL standard for one component, on Latin-1
    text: a space becomes a plus sign, the letters, digits and [*-._]
    stay, and every other character is percent-encoded through UTF-8. *)
Module FormUrlEncoded.

Definition hexDigit (n : N) : ascii :=
  if (n <? 10)%N then ascii_of_N (48 + n) else ascii_of_N (55 + n).

Definition percent (byte : N) : string :=
  String "%" (String (hexDigit (byte / 16))
                (String (hexDigit (byte mod 16)) "")).

Definition utf8 (c : ascii) : list N :=
  if (code c <? 128)%N then [code c]
  else [(192 + code c / 64)%N; (128 + code c mod 64)%N].

Definition unreserved (c : ascii) : bool :=
  between 48 57 c || between 65 90 c || between 97 122 c
  || (code c =? 42)%N || (code c =? 45)%N || (code c =? 46)%N
  || (code c =? 95)%N.

Definition encodeChar (c : ascii) : string :=
  if (code c =? 32)%N then "+"
  else if unreserved c then String c ""
  else String.concat "" (map percent (utf8 c)).

Fixpoint encode (s : string) : string :=
  match s with
  | EmptyString => ""
  | String c s' => encodeChar c ++ encode s'
  end.

End FormUrlEncoded.

(** ** Observations on a trace *)

(** The requests issued. *)
Definition requests (tr : list Event) : list (string * string) :=
  flat_map (fun e => match e with
                     | Fetch method _ url => [(method, url)]
                     | _ => []
                     end) tr.

(** The errors reported on the console. *)
Definition reported (tr : list Event) : list Thrown :=
  flat_map (fun e => match e with
                     | ConsoleError _ error => [error]
                     | _ => []
                     end) tr.

(** The alerts shown, as (title, message). *)
Definition alerts (tr : list Event) : list (string * string) :=
  flat_map (fun e => match e with
                     | Alert title message => [(title, message)]
                     | _ => []
                     end) tr.

(** The values stored in [lastCommand]. *)
Definition lastCommands (tr : list Event) : list string :=
  flat_map (fun e => match e with
                     | SetLastCommand s => [s]
                     | _ => []
                     end) tr.

(** ** Predicates used by the statements *)

(** Some synonym of some color of the table occurs in the command. *)
Definition mentionsColor (command : string) : bool :=
  some (fun c => includes c command) allVariations.

(** The first color of the table, in table order, with a synonym in the
    command. *)
Definition firstColor (command : string) : option string :=
  option_map fst
    (find (fun entry => some (fun v => includes v command) (snd entry))
          COLOR_VARIATIONS).

(** Containment of one of several literals. *)
Definition includesAny (words : list string) (command : string) : bool :=
  some (fun w => includes w command) words.

(** The power pattern, read on a lower-cased command. *)
Definition powerPattern (command : string) : bool :=
  includesAny rxTurnOnOff command || includesAny rxOnOff command.

(** No character of the string has a lower-case partner. *)
Fixpoint lowered (s : string) : bool :=
  match s with
  | EmptyString => true
  | String c s' => negb (isUpper c) && lowered s'
  end.

(** A keyword that neither starts nor ends with white space. *)
Fixpoint endsSolid (p : string) : bool :=
  match p with
  | EmptyString => false
  | String c EmptyString => negb (isWhiteSpace c)
  | String _ p' => endsSolid p'
  end.

Definition solid (p : string) : bool :=
  match p with
  | EmptyString => false
  | String c _ => negb (isWhiteSpace c) && endsSolid p
  end.

(** A string of white space only. *)
Fixpoint blank (s : string) : bool :=
  match s with
  | EmptyString => true
  | String c s' => isWhiteSpace c && blank s'
  end.

(** The keywords that select a brightness level. *)
Definition levelWords : list string := rxFull ++ rxHalf ++ rxLow.

(** The colors of the table with a synonym in the command, in table
    order. *)
Definition colorsMentioned (command : string) : list string :=
  map fst
    (filter (fun entry => includesAny (snd entry) command) COLOR_VARIATIONS).

(** [c] is the earliest color of the table with a synonym in the
    command: every entry before it has none. *)
Definition EarliestColor (command c : string) : Prop :=
  exists before variations after,
    COLOR_VARIATIONS = (before ++ (c, variations) :: after)%list
    /\ includesAny variations command = true
    /\ forall entry, In entry before ->
         includesAny (snd entry) command = false.

(** The network answered with a status in 200..299. *)
Definition Is2xx (net : FetchResult) : Prop :=
  exists status body,
    net = Response status body /\ 200 <= status /\ status <= 299.

(** ** The extended home screen: the dispatch of [processVoiceCommand] *)

(** The double quote and the line feed, for the texts of the alerts. *)
Definition dq : string := String (ascii_of_nat 34) "".
Definition nl : string := String (ascii_of_nat 10) "".

(** [s.replace(c, by)] for a one-character pattern: the first occurrence
    only. *)
Fixpoint replaceChar (c : ascii) (by_ : string) (s : string) : string :=
  match s with
  | EmptyString => EmptyString
  | String a s' =>
      if Ascii.eqb a c then by_ ++ s' else String a (replaceChar c by_ s')
  end.

(** The text of the "Command Not Recognized" alert; its bullet, U+2022,
    lies outside the range of the characters and is a parameter. *)
Definition helpMessage (bullet : string) : string :=
  "Try saying things like:" ++ nl ++
  bullet ++ " " ++ dq ++ "Turn the light on/off" ++ dq ++ nl ++
  bullet ++ " " ++ dq ++ "Change to blue" ++ dq ++ nl ++
  bullet ++ " " ++ dq ++ "Set the color to red" ++ dq ++ nl ++
  bullet ++ " " ++ dq ++ "Make it green" ++ dq.

(** [`Command executed: ...`], with the parameter when there is one. *)
Definition feedbackMessage (c : Command) : string :=
  "Command executed: " ++ replaceChar "_" " " (action c) ++
  (if truthy (color c) then " (" ++ color c ++ ")" else "").

(** [COLORS], the buttons of both screens: name and value (the emoji is
    left out). *)
Definition COLORS : list (string * string) :=
  [ ("red", "#FF4444"); ("blue", "#4444FF"); ("green", "#44FF44");
    ("yellow", "#FFFF44"); ("white", "#FFFFFF") ].

Section Screens.

Variable encode : string -> string.
Variable OS : string.
Variable webhookUrl : string.
Variable net : FetchResult.
Variable bullet : string.

(** [processVoiceCommand] of the extended screen, whole: the decision,
    then the awaited [sendCommand] and the feedback, or the help. *)
Definition processVoiceCommand (text : string) : list Event :=
  let c := interpret text in
  if truthy (action c)
  then (sendCommand encode OS webhookUrl net (action c) (Some (color c))
        ++ [Alert "Success" (feedbackMessage c)])%list
  else [Alert "Command Not Recognized" (helpMessage bullet)].

(** The color buttons of the extended screen. *)
Definition pressColor (button : string * string) : list Event :=
  sendCommand encode OS webhookUrl net "set_color" (Some (fst button)).

(** The color buttons of the simple screen. *)
Definition pressColorSimple (button : string * string) : list Event :=
  sendCommandSimple encode OS webhookUrl net "color" (Some (snd button)).

(** ** The simple home screen: [parseVoiceCommand] *)

Definition parseVoiceCommand (command : string) : list Event :=
  let lowerCommand := toLowerCase command in
  if includes "turn on" lowerCommand
     || includes "switch on" lowerCommand
     || String.eqb lowerCommand "on"
  then sendCommandSimple encode OS webhookUrl net "on" None
  else if includes "turn off" lowerCommand
          || includes "switch off" lowerCommand
          || String.eqb lowerCommand "off"
  then sendCommandSimple encode OS webhookUrl net "off" None
  else if includes "red" lowerCommand
          || includes "change to red" lowerCommand
  then sendCommandSimple encode OS webhookUrl net "color" (Some "red")
  else if includes "blue" lowerCommand
          || includes "change to blue" lowerCommand
  then sendCommandSimple encode OS webhookUrl net "color" (Some "blue")
  else if includes "green" lowerCommand
          || includes "change to green" lowerCommand
  then sendCommandSimple encode OS webhookUrl net "color" (Some "green")
  else if includes "yellow" lowerCommand
          || includes "change to yellow" lowerCommand
  then sendCommandSimple encode OS webhookUrl net "color" (Some "yellow")
  else if includes "white" lowerCommand
          || includes "change to white" lowerCommand
  then sendCommandSimple encode OS webhookUrl net "color" (Some "white")
  else
    if notWeb OS
    then [Alert "Command not recognized"
            ("Try saying: " ++ dq ++ "Turn on" ++ dq ++ ", " ++ dq
             ++ "Turn off" ++ dq ++ ", or " ++ dq ++ "Change to red" ++ dq
             ++ nl ++ nl ++ "Received: " ++ dq ++ command ++ dq)]
    else [].

(** [handleVoiceResults] of the simple screen; [value] is [event.value],
    absent or an array of results. *)
Definition handleVoiceResults (value : option (list string)) : list Event :=
  match value with
  | Some (first :: _) =>
      let command := trim (toLowerCase first) in
      SetLastCommand command :: parseVoiceCommand command
  | _ => []
  end.

End Screens.

(** ** Vocabularies of the two screens *)

(** The payloads the extended interpreter can produce. *)
Definition vocabulary : list (list (string * string)) :=
  ([[("action", "turn_on")]; [("action", "turn_off")]]
   ++ map (fun entry => [("action", "set_color"); ("color", fst entry)])
        COLOR_VARIATIONS
   ++ map (fun level => [("action", "set_brightness"); ("brightness", level)])
        ["100"; "50"; "20"])%list.

(** The payloads the simple parser can produce. *)
Definition vocabularySimple : list (list (string * string)) :=
  ([[("action", "on")]; [("action", "off")]]
   ++ map (fun c => [("action", "color"); ("color", c)])
        ["red"; "blue"; "green"; "yellow"; "white"])%list.

(** The values given to [isLoading]. *)
Definition loadings (tr : list Event) : list bool :=
  flat_map (fun e => match e with
                     | SetIsLoading b => [b]
                     | _ => []
                     end) tr.

(** ** Settings storage

    [AsyncStorage] as a finite map from keys to strings; a call that
    rejects leaves the store as it was. *)

Definition Storage : Type := string -> option string.

Definition getItem (store : Storage) (key : string) : option string :=
  store key.

Definition setItem (store : Storage) (key value : string) : Storage :=
  fun k => if String.eqb k key then Some value else store k.

(** Each function takes the rejection of its storage call, if any; a
    loader returns the new value of its state, a saver the new store. *)
Definition loadSetting (key label : string) (fault : option Thrown)
    (store : Storage) (state : string) : string * list Event :=
  match fault with
  | Some error => (state, [ConsoleError label error])
  | None =>
      match getItem store key with
      | Some value => if truthy value then (value, []) else (state, [])
      | None => (state, [])
      end
  end.

Definition saveSetting (key label : string) (fault : option Thrown)
    (store : Storage) (value : string) : Storage * list Event :=
  match fault with
  | Some error => (store, [ConsoleError label error])
  | None => (setItem store key value, [])
  end.

Definition loadWebhookUrl : option Thrown -> Storage -> string
                            -> string * list Event :=
  loadSetting "webhookUrl" "Error loading webhook URL:".

Definition saveWebhookUrl : option Thrown -> Storage -> string
                            -> Storage * list Event :=
  saveSetting "webhookUrl" "Error saving webhook URL:".

Definition loadOpenAIKey : option Thrown -> Storage -> string
                           -> string * list Event :=
  loadSetting "openAIKey" "Error loading OpenAI key:".

Definition saveOpenAIKey : option Thrown -> Storage -> string
                           -> Storage * list Event :=
  saveSetting "openAIKey" "Error saving OpenAI key:".

(** ** Recording and transcription on the extended screen *)

(** A field of the multipart form sent to the transcription service. *)
Inductive FormValue : Type :=
| FormFile (uri type name : string)
| FormText (value : string).

(** The steps of the voice functions: the events of the transport, the
    two states of the recorder, the calls to the audio and file modules
    and the upload of the form. *)
Inductive Step : Type :=
| Ui (e : Event)
| SetIsListening (b : bool)
| SetRecording (present : bool)
| AudioCall (name : string)
| ReadFile (uri : string)
| Upload (url : string) (headers : list (string * string))
    (form : list (string * FormValue)).

Module Act.

Definition t (A : Type) : Type := (list Step * (Thrown + A))%type.

Definition ret {A} (a : A) : t A := ([], inr a).

Definition bind {A B} (m : t A) (f : A -> t B) : t B :=
  match m with
  | (tr, inl e) => (tr, inl e)
  | (tr, inr a) => let (tr', r) := f a in ((tr ++ tr')%list, r)
  end.

Definition emit (s : Step) : t unit := ([s], inr tt).

Definition throw {A} (e : Thrown) : t A := ([], inl e).

(** Await a promise that is already settled. *)
Definition await {A} (p : Thrown + A) : t A := ([], p).

(** A call to a module, with the outcome of its promise. *)
Definition call {A} (s : Step) (outcome : Thrown + A) : t A :=
  ([s], outcome).

(** [try { body } catch (error) { handler }], the handler returning the
    value of the whole. *)
Definition tryCatch {A} (body : t A) (handler : Thrown -> list Step * A)
    : list Step * A :=
  match body with
  | (tr, inl e) => let (tr', a) := handler e in ((tr ++ tr')%list, a)
  | (tr, inr a) => (tr, a)
  end.

End Act.

Declare Scope act_scope.
Delimit Scope act_scope with act.
Notation "x <- m ;; k" := (Act.bind m (fun x => k))
  (at level 61, m at next level, right associativity) : act_scope.
Notation "m ;; k" := (Act.bind m (fun _ => k))
  (at level 61, right associativity) : act_scope.

Definition whisperUrl : string :=
  "https://api.openai.com/v1/audio/transcriptions".

(** The answer of a [fetch], as the voice functions await it. *)
Definition answer (net : FetchResult) : Thrown + (nat * (Thrown + string)) :=
  match net with
  | Rejected cause => inl cause
  | Response status body => inr (status, body)
  end.

Section Voice.

Variable encode : string -> string.
Variable OS : string.
Variable webhookUrl : string.
Variable openAIKey : string.
Variable bullet : string.

(** [startRecording], given the outcomes of its three audio calls. *)
Definition startRecording (permission mode create : Thrown + unit)
    : list Step :=
  fst (Act.tryCatch
    (Act.call (AudioCall "requestPermissionsAsync") permission ;;
     Act.call (AudioCall "setAudioModeAsync") mode ;;
     Act.call (AudioCall "createAsync") create ;;
     Act.emit (SetRecording true) ;;
     Act.emit (SetIsListening true))%act
    (fun err =>
       ([Ui (ConsoleError "Failed to start recording" err);
         Ui (Alert "Error" "Failed to start recording")], tt))).

(** [stopRecording], given the state [recording] (present or null), the
    outcome of [stopAndUnloadAsync], the value of [getURI], the answer of
    the transcription service (its body being the [text] field of the
    JSON, or the failure to get it) and the answer of the webhook. *)
Definition stopRecording (recording : bool) (stop : Thrown + unit)
    (uri : option string) (whisper hook : FetchResult) : list Step :=
  if negb recording then []
  else
    fst (Act.tryCatch
      (Act.call (AudioCall "stopAndUnloadAsync") stop ;;
       Act.emit (SetRecording false) ;;
       Act.emit (SetIsListening false) ;;
       (if negb (truthyOpt uri)
        then Act.throw (ErrorObject "No recording URI available")
        else Act.ret tt) ;;
       response <- Act.call
         (Upload whisperUrl [("Authorization", "Bearer " ++ openAIKey)]
            [("file", FormFile (orEmpty uri) "audio/m4a" "recording.m4a");
             ("model", FormText "whisper-1")])
         (answer whisper) ;;
       (if negb (ok (fst response))
        then Act.throw (ErrorObject
               ("OpenAI API error: " ++ showStatus (fst response)))
        else Act.ret tt) ;;
       text <- Act.await (snd response) ;;
       let command := trim text in
       let queryParams := queryString encode [("command", command)] in
       webhookResponse <- Act.call
         (Ui (Fetch "GET" [] (trim webhookUrl ++ "?" ++ queryParams)))
         (answer hook) ;;
       (if negb (ok (fst webhookResponse))
        then Act.throw (ErrorObject
               ("Webhook error: " ++ showStatus (fst webhookResponse)))
        else Act.ret tt) ;;
       Act.emit (Ui (SetLastCommand command)) ;;
       Act.emit (Ui (Alert "Command Sent" (dq ++ command ++ dq))))%act
      (fun err =>
         ([Ui (ConsoleError "Error:" err);
           Ui (Alert "Error" "Failed to process voice command")], tt))).

(** [startVoiceRecognition] of the extended screen, given the states
    [isListening] and [recording] and what the world answers. *)
Definition startVoiceRecognition (isListening recording : bool)
    (permission mode create stop : Thrown + unit) (uri : option string)
    (whisper hook : FetchResult) : list Step :=
  if negb (truthy openAIKey) || negb (truthy webhookUrl)
  then [Ui (Alert "Error"
              "Please set both OpenAI API key and webhook URL first")]
  else if isListening
  then stopRecording recording stop uri whisper hook
  else startRecording permission mode create.

(** [convertVoiceToText], given the outcome of reading the file and the
    answer of the transcription service (its body being the text of an
    error response, or the [text] field of the JSON of a success). *)
Definition convertVoiceToText (audioUri : string) (read : Thrown + string)
    (whisper : FetchResult) : list Step * option string :=
  if negb (truthy openAIKey)
  then ([Ui (Alert "Error" "Please set your OpenAI API key in settings")],
        None)
  else
    Act.tryCatch
      (Act.call (ReadFile audioUri) read ;;
       response <- Act.call
         (Upload whisperUrl [("Authorization", "Bearer " ++ openAIKey)]
            [("file", FormFile audioUri "audio/m4a" "audio.m4a");
             ("model", FormText "whisper-1")])
         (answer whisper) ;;
       if negb (ok (fst response))
       then (text <- Act.await (snd response) ;;
             Act.throw (ErrorObject
               ("HTTP " ++ showStatus (fst response) ++ ": " ++ text)))
       else (text <- Act.await (snd response) ;;
             Act.ret (Some (toLowerCase (trim text)))))%act
      (fun error =>
         ([Ui (ConsoleError "Error converting voice to text:" error);
           Ui (Alert "Error" "Failed to convert voice to text")], None)).

(** [handleVoiceResults] of the extended screen; [net] is the answer of
    the webhook to the command that follows. *)
Definition handleVoiceResultsExtended (value : option (list string))
    (read : Thrown + string) (whisper net : FetchResult) : list Step :=
  match value with
  | Some (audioUri :: _) =>
      let (steps, result) := convertVoiceToText audioUri read whisper in
      match result with
      | Some text =>
          if truthy text
          then (steps ++ Ui (SetLastCommand text)
                  :: map Ui (processVoiceCommand encode OS webhookUrl net
                               bullet text))%list
          else steps
      | None => steps
      end
  | _ => []
  end.

End Voice.

(** The events of the transport among the steps. *)
Definition uiEvents (steps : list Step) : list Event :=
  flat_map (fun s => match s with Ui e => [e] | _ => [] end) steps.

(** The values given to [isListening] and to [recording]. *)
Definition listenings (steps : list Step) : list bool :=
  flat_map (fun s => match s with SetIsListening b => [b] | _ => [] end)
    steps.

Definition recordings (steps : list Step) : list bool :=
  flat_map (fun s => match s with SetRecording b => [b] | _ => [] end) steps.

(** The forms uploaded, with the address. *)
Definition uploads (steps : list Step) : list string :=
  flat_map (fun s => match s with Upload url _ _ => [url] | _ => [] end)
    steps.

(** The transcription succeeded with this text. *)
Definition Transcribed (whisper : FetchResult) (text : string) : Prop :=
  exists status, whisper = Response status (inr text) /\ ok status = true.

(** * Properties *)

Example interpret_turn_on : interpret "Turn ON" = mkCommand TurnOn "".
Proof. reflexivity. Qed.

Example interpret_change_to_blue :
  interpret "change to blue" = mkCommand SetColor "blue".
Proof. reflexivity. Qed.

Example interpret_turn_it_off :
  interpret "turn it off" = mkCommand TurnOff "".
Proof. reflexivity. Qed.

Example interpret_midnight_bright :
  interpret "midnight, but bright" = mkCommand SetBrightness "50".
Proof. reflexivity. Qed.

Example interpret_brightness_half :
  interpret "  set brightness to half " = mkCommand SetBrightness "50".
Proof. reflexivity. Qed.

Example sendCommand_ok :
  sendCommand FormUrlEncoded.encode "ios" " https://n8n.local/hook "
    (Response 200 (inr "done")) SetColor (Some "red")
  = [SetIsLoading true;
     Fetch "GET" [] "https://n8n.local/hook?action=set_color&color=red";
     SetLastCommand "set_color red";
     SetIsLoading false].
Proof. reflexivity. Qed.

Example sendCommandSimple_500 :
  sendCommandSimple FormUrlEncoded.encode "ios" "https://n8n.local/hook"
    (Response 500 (inr "boom")) "color" (Some "#FF4444")
  = [SetIsLoading true;
     Fetch "GET" [("Accept", "application/json")]
       "https://n8n.local/hook?action=color&color=%23FF4444";
     ConsoleError "Error sending command:" (ErrorObject "HTTP 500: boom");
     Alert "Error" "Failed to send command: HTTP 500: boom";
     SetIsLoading false].
Proof. reflexivity. Qed.

(** ** Characters *)

Ltac each_char c :=
  destruct c as [[|] [|] [|] [|] [|] [|] [|] [|]].

Lemma lowerChar_not_upper (c : ascii) : isUpper (lowerChar c) = false.
Proof. each_char c; reflexivity. Qed.

Lemma lowerChar_canonicalize (c : ascii) :
  isUpper c = false -> lowerChar (canonicalize c) = c.
Proof. each_char c; intro H; try reflexivity; discriminate H. Qed.

Lemma canonicalize_eqb (a b : ascii) :
  isUpper a = false -> isUpper b = false ->
  Ascii.eqb (canonicalize a) (canonicalize b) = Ascii.eqb a b.
Proof.
  intros Ha Hb.
  destruct (Ascii.eqb_spec a b) as [->|Hne].
  - apply Ascii.eqb_refl.
  - apply Ascii.eqb_neq. intro Heq. apply Hne.
    rewrite <- (lowerChar_canonicalize a Ha), <- (lowerChar_canonicalize b Hb).
    now rewrite Heq.
Qed.

(** ** Lower-cased strings *)

Lemma lowered_toLowerCase (s : string) : lowered (toLowerCase s) = true.
Proof.
  induction s as [|c s IH]; simpl; [reflexivity|].
  now rewrite lowerChar_not_upper, IH.
Qed.

Lemma lowered_trimStart (s : string) :
  lowered s = true -> lowered (trimStart s) = true.
Proof.
  induction s as [|c s IH]; simpl; [reflexivity|].
  intro H. destruct (isWhiteSpace c); [|exact H].
  apply andb_prop in H. now apply IH.
Qed.

Lemma lowered_trimEnd (s : string) :
  lowered s = true -> lowered (trimEnd s) = true.
Proof.
  induction s as [|c s IH]; simpl; [reflexivity|].
  intro H. apply andb_prop in H. destruct H as [Hc Hs].
  specialize (IH Hs).
  destruct (trimEnd s) as [|d t].
  - destruct (isWhiteSpace c); simpl; [reflexivity|]. now rewrite Hc.
  - change (lowered (String c (String d t))) with
      (negb (isUpper c) && lowered (String d t)).
    now rewrite Hc, IH.
Qed.

Lemma lowered_normalize (text : string) : lowered (normalize text) = true.
Proof.
  unfold normalize, trim.
  apply lowered_trimEnd, lowered_trimStart, lowered_toLowerCase.
Qed.

(** ** Case-insensitive matching on a lower-cased command *)

Lemma prefix_cons (a b : ascii) (p s : string) :
  prefix (String a p) (String b s) = Ascii.eqb a b && prefix p s.
Proof.
  simpl. destruct (ascii_dec a b) as [->|Hne].
  - now rewrite Ascii.eqb_refl.
  - apply Ascii.eqb_neq in Hne. now rewrite Hne.
Qed.

Lemma prefix_i_lowered (p s : string) :
  lowered p = true -> lowered s = true -> prefix_i p s = prefix p s.
Proof.
  revert s. induction p as [|a p IH]; intros s Hp Hs.
  - now destruct s.
  - destruct s as [|b s]; [reflexivity|].
    simpl in Hp, Hs.
    apply andb_prop in Hp. destruct Hp as [Ha Hp].
    apply andb_prop in Hs. destruct Hs as [Hb Hs].
    apply negb_true_iff in Ha. apply negb_true_iff in Hb.
    rewrite prefix_cons. cbn [prefix_i].
    now rewrite canonicalize_eqb, IH.
Qed.

Lemma includes_i_lowered (p s : string) :
  lowered p = true -> lowered s = true -> includes_i p s = includes p s.
Proof.
  intros Hp. induction s as [|b s IH]; intro Hs.
  - cbn [includes_i includes]. now rewrite prefix_i_lowered.
  - cbn [includes_i includes]. rewrite prefix_i_lowered by assumption.
    simpl in Hs. apply andb_prop in Hs. now rewrite IH.
Qed.

Lemma matches_i_lowered (alternatives : list string) (s : string) :
  forallb lowered alternatives = true -> lowered s = true ->
  matches_i alternatives s = includesAny alternatives s.
Proof.
  intros Ha Hs. unfold matches_i, includesAny, some.
  induction alternatives as [|a l IH]; [reflexivity|].
  simpl in Ha. apply andb_prop in Ha. destruct Ha as [Ha Hl].
  simpl. now rewrite includes_i_lowered, IH.
Qed.

(** On the command that [processVoiceCommand] builds, the [i] flag of
    its patterns changes nothing. *)
Lemma matches_i_normalize (alternatives : list string) (text : string) :
  forallb lowered alternatives = true ->
  matches_i alternatives (normalize text)
  = includesAny alternatives (normalize text).
Proof. intro H. apply matches_i_lowered; [exact H|apply lowered_normalize]. Qed.

(** ** Trimming does not change which keywords occur *)

Lemma prefix_blank (p w : string) :
  endsSolid p = true -> blank w = true -> prefix p w = false.
Proof.
  revert w. induction p as [|a p IH]; intros w Hp Hw; [discriminate Hp|].
  destruct w as [|b w]; [reflexivity|].
  rewrite prefix_cons. simpl in Hw. apply andb_prop in Hw.
  destruct Hw as [Hb Hw].
  destruct p as [|a' p].
  - simpl in Hp. destruct (Ascii.eqb_spec a b) as [->|_]; [|reflexivity].
    rewrite Hb in Hp. discriminate Hp.
  - rewrite (IH w); [apply andb_false_r|exact Hp|exact Hw].
Qed.

Lemma prefix_app_blank (p t w : string) :
  endsSolid p = true -> blank w = true -> prefix p (t ++ w) = prefix p t.
Proof.
  revert t. induction p as [|a p IH]; intros t Hp Hw; [discriminate Hp|].
  destruct t as [|b t].
  - cbn [append]. rewrite prefix_blank by assumption. reflexivity.
  - cbn [append]. rewrite !prefix_cons.
    destruct p as [|a' p]; [now destruct (t ++ w), t|].
    now rewrite IH.
Qed.

Lemma includes_blank (p w : string) :
  endsSolid p = true -> blank w = true -> includes p w = false.
Proof.
  intro Hp. induction w as [|b w IH]; intro Hw.
  - cbn [includes]. now rewrite prefix_blank.
  - cbn [includes]. rewrite prefix_blank by assumption.
    simpl in Hw. apply andb_prop in Hw. now apply IH.
Qed.

Lemma includes_app_blank (p t w : string) :
  endsSolid p = true -> blank w = true -> includes p (t ++ w) = includes p t.
Proof.
  intros Hp Hw. induction t as [|b t IH].
  - cbn [append]. rewrite includes_blank by assumption.
    destruct p; [discriminate Hp|reflexivity].
  - change (String b t ++ w) with (String b (t ++ w)). cbn [includes].
    change (String b (t ++ w)) with (String b t ++ w).
    now rewrite prefix_app_blank, IH.
Qed.

Lemma trimEnd_split (s : string) :
  exists w, blank w = true /\ s = trimEnd s ++ w.
Proof.
  induction s as [|c s [w [Hw Hs]]].
  - exists "". now split.
  - cbn [trimEnd]. destruct (trimEnd s) as [|d t] eqn:Ht.
    + cbn [append] in Hs. subst w.
      destruct (isWhiteSpace c) eqn:Hc.
      * exists (String c s). split; [|reflexivity]. simpl. now rewrite Hc.
      * exists s. now split.
    + exists w. split; [exact Hw|]. cbn [append]. now rewrite Hs at 1.
Qed.

Lemma includes_trimEnd (p s : string) :
  endsSolid p = true -> includes p (trimEnd s) = includes p s.
Proof.
  intro Hp. destruct (trimEnd_split s) as [w [Hw Hs]].
  rewrite Hs at 2. symmetry. now apply includes_app_blank.
Qed.

Lemma includes_trimStart (p s : string) :
  solid p = true -> includes p (trimStart s) = includes p s.
Proof.
  intro Hp. induction s as [|c s IH]; [reflexivity|].
  cbn [trimStart]. destruct (isWhiteSpace c) eqn:Hc; [|reflexivity].
  rewrite IH. cbn [includes].
  destruct p as [|a p]; [discriminate Hp|].
  rewrite prefix_cons. simpl in Hp. apply andb_prop in Hp.
  destruct Hp as [Ha _].
  destruct (Ascii.eqb_spec a c) as [->|_]; [|reflexivity].
  rewrite Hc in Ha. discriminate Ha.
Qed.

Lemma solid_endsSolid (p : string) : solid p = true -> endsSolid p = true.
Proof.
  destruct p as [|a p]; [discriminate|]. unfold solid.
  intro H. now apply andb_prop in H.
Qed.

Lemma includes_trim (p s : string) :
  solid p = true -> includes p (trim s) = includes p s.
Proof.
  intro Hp. unfold trim.
  rewrite includes_trimEnd by now apply solid_endsSolid.
  now apply includes_trimStart.
Qed.

Lemma includesAny_normalize (words : list string) (text : string) :
  forallb solid words = true ->
  includesAny words (normalize text) = includesAny words (toLowerCase text).
Proof.
  intro H. unfold includesAny, some, normalize.
  induction words as [|w l IH]; [reflexivity|].
  simpl in H. apply andb_prop in H. destruct H as [Hw Hl].
  simpl. now rewrite includes_trim, IH.
Qed.

(** ** The three steps on a lower-cased command *)

Lemma rx_lowered :
  forallb lowered rxTurnOnOff = true /\ forallb lowered rxOnOff = true
  /\ forallb lowered rxBrightness = true /\ forallb lowered rxFull = true
  /\ forallb lowered rxHalf = true /\ forallb lowered rxLow = true.
Proof. repeat split; reflexivity. Qed.

Section Steps.

Variable command : string.
Hypothesis command_lowered : lowered command = true.

Lemma powerStep_lowered (st : Command) :
  powerStep command st =
  if powerPattern command
  then mkCommand (if includes "off" command then TurnOff else TurnOn)
         (color st)
  else st.
Proof.
  unfold powerStep, powerPattern.
  now rewrite !matches_i_lowered by (assumption || reflexivity).
Qed.

Lemma brightnessStep_lowered (st : Command) :
  brightnessStep command st =
  if includesAny rxBrightness command then
    if includesAny rxFull command then mkCommand SetBrightness "100"
    else if includesAny rxHalf command then mkCommand SetBrightness "50"
    else if includesAny rxLow command then mkCommand SetBrightness "20"
    else st
  else st.
Proof.
  unfold brightnessStep.
  now rewrite !matches_i_lowered by (assumption || reflexivity).
Qed.

End Steps.

(** ** The color loop *)

Lemma colorLoop_find (entries : list (string * list string))
    (command : string) (st : Command) :
  colorLoop entries command st =
  match find (fun entry => some (fun v => includes v command) (snd entry))
             entries with
  | Some entry => mkCommand SetColor (fst entry)
  | None => st
  end.
Proof.
  induction entries as [|[baseColor variations] rest IH]; [reflexivity|].
  cbn [colorLoop find snd fst].
  destruct (some _ variations); [reflexivity|exact IH].
Qed.

Lemma colorLoop_firstColor (command : string) (st : Command) :
  colorLoop COLOR_VARIATIONS command st =
  match firstColor command with
  | Some c => mkCommand SetColor c
  | None => st
  end.
Proof.
  rewrite colorLoop_find. unfold firstColor.
  now destruct (find _ COLOR_VARIATIONS).
Qed.

Lemma find_none_flat_map (entries : list (string * list string))
    (f : string -> bool) :
  find (fun entry => some f (snd entry)) entries = None <->
  some f (flat_map snd entries) = false.
Proof.
  unfold some. induction entries as [|[c vs] rest IH]; [now split|].
  cbn [find flat_map snd]. rewrite existsb_app.
  destruct (existsb f vs); cbn [orb]; [now split|exact IH].
Qed.

Lemma firstColor_none (command : string) :
  firstColor command = None <-> mentionsColor command = false.
Proof.
  unfold firstColor, mentionsColor, allVariations.
  rewrite <- find_none_flat_map.
  destruct (find _ COLOR_VARIATIONS); [split; discriminate|now split].
Qed.

Lemma colorStep_firstColor (command : string) (st : Command) :
  colorStep command st =
  match firstColor command with
  | Some c => mkCommand SetColor c
  | None => st
  end.
Proof.
  unfold colorStep.
  destruct (hasColorCommand command || negb (truthy (action st))) eqn:Hgate.
  - apply colorLoop_firstColor.
  - apply orb_false_elim in Hgate. destruct Hgate as [Hhas _].
    unfold hasColorCommand in Hhas.
    apply orb_false_elim in Hhas. destruct Hhas as [_ Hm].
    apply firstColor_none in Hm. now rewrite Hm.
Qed.

Lemma find_split {A} (f : A -> bool) (l : list A) (x : A) :
  find f l = Some x ->
  exists before after,
    l = (before ++ x :: after)%list /\ f x = true
    /\ forall y, In y before -> f y = false.
Proof.
  induction l as [|a l IH]; [discriminate|].
  cbn [find]. destruct (f a) eqn:Hfa.
  - intros [= ->]. exists [], l. repeat split; [exact Hfa|intros y []].
  - intro H. destruct (IH H) as (before & after & -> & Hx & Hb).
    exists (a :: before), after. repeat split; [exact Hx|].
    intros y [<-|Hy]; [exact Hfa|now apply Hb].
Qed.

Lemma split_find {A} (f : A -> bool) (before after : list A) (x : A) :
  f x = true -> (forall y, In y before -> f y = false) ->
  find f (before ++ x :: after) = Some x.
Proof.
  intros Hx. induction before as [|a before IH]; intro Hb.
  - cbn. now rewrite Hx.
  - cbn. rewrite (Hb a (or_introl eq_refl)). apply IH.
    intros y Hy. apply Hb. now right.
Qed.

Lemma EarliestColor_firstColor (command c : string) :
  EarliestColor command c -> firstColor command = Some c.
Proof.
  intros (before & variations & after & Ht & Hv & Hb).
  unfold firstColor. rewrite Ht.
  rewrite (split_find _ before after (c, variations)); [reflexivity|exact Hv|].
  exact Hb.
Qed.

Lemma firstColor_EarliestColor (command c : string) :
  firstColor command = Some c -> EarliestColor command c.
Proof.
  unfold firstColor.
  destruct (find _ COLOR_VARIATIONS) as [[c' vs]|] eqn:Hf; [|discriminate].
  intros [= <-]. apply find_split in Hf.
  destruct Hf as (before & after & Ht & Hv & Hb).
  now exists before, vs, after.
Qed.

(** The names of the table are its nine colors. *)
Lemma firstColor_name (command c : string) :
  firstColor command = Some c ->
  In c ["red"; "blue"; "green"; "yellow"; "white"; "black"; "purple";
        "orange"; "pink"].
Proof.
  unfold firstColor.
  destruct (find _ COLOR_VARIATIONS) as [entry|] eqn:Hf; [|discriminate].
  intros [= <-]. apply find_some in Hf. destruct Hf as [Hin _].
  change (In (fst entry) (map fst COLOR_VARIATIONS)). now apply in_map.
Qed.

(** ** The interpreter in one equation *)

Lemma interpret_eq (text : string) :
  let command := normalize text in
  interpret text =
  if includesAny rxBrightness command && includesAny levelWords command
  then mkCommand SetBrightness
         (if includesAny rxFull command then "100"
          else if includesAny rxHalf command then "50" else "20")
  else match firstColor command with
       | Some c => mkCommand SetColor c
       | None =>
           if powerPattern command
           then mkCommand
                  (if includes "off" command then TurnOff else TurnOn) ""
           else mkCommand NoAction ""
       end.
Proof.
  intro command. unfold interpret. fold command.
  pose proof (lowered_normalize text) as Hl. fold command in Hl.
  rewrite brightnessStep_lowered, colorStep_firstColor, powerStep_lowered
    by exact Hl.
  unfold levelWords, includesAny, some. rewrite !existsb_app.
  fold (some (fun w => includes w command) rxFull).
  fold (some (fun w => includes w command) rxHalf).
  fold (some (fun w => includes w command) rxLow).
  fold (includesAny rxFull command) (includesAny rxHalf command)
       (includesAny rxLow command).
  fold (some (fun w => includes w command) rxBrightness).
  fold (includesAny rxBrightness command).
  destruct (includesAny rxBrightness command),
           (includesAny rxFull command),
           (includesAny rxHalf command),
           (includesAny rxLow command); reflexivity.
Qed.

(** The same equation on the lower-cased text, before trimming: no
    keyword of the program starts or ends with white space. *)
Lemma firstColor_normalize (text : string) :
  firstColor (normalize text) = firstColor (toLowerCase text).
Proof.
  unfold firstColor, normalize, COLOR_VARIATIONS.
  cbn [find snd some existsb].
  now rewrite !includes_trim by reflexivity.
Qed.

Lemma powerPattern_normalize (text : string) :
  powerPattern (normalize text) = powerPattern (toLowerCase text).
Proof.
  unfold powerPattern. now rewrite !includesAny_normalize by reflexivity.
Qed.

Lemma interpret_lower (text : string) :
  let lower := toLowerCase text in
  interpret text =
  if includesAny rxBrightness lower && includesAny levelWords lower
  then mkCommand SetBrightness
         (if includesAny rxFull lower then "100"
          else if includesAny rxHalf lower then "50" else "20")
  else match firstColor lower with
       | Some c => mkCommand SetColor c
       | None =>
           if powerPattern lower
           then mkCommand
                  (if includes "off" lower then TurnOff else TurnOn) ""
           else mkCommand NoAction ""
       end.
Proof.
  intro lower. rewrite interpret_eq. cbv zeta.
  rewrite firstColor_normalize, powerPattern_normalize.
  rewrite !includesAny_normalize by reflexivity.
  unfold normalize. rewrite includes_trim by reflexivity.
  reflexivity.
Qed.

(** ** Keywords that contain other keywords *)

Lemma prefix_empty (s : string) : prefix "" s = true.
Proof. now destruct s. Qed.

Lemma prefix_app_l (p q s : string) :
  prefix (p ++ q) s = true -> prefix p s = true.
Proof.
  revert s. induction p as [|a p IH]; intros s H; [apply prefix_empty|].
  destruct s as [|b s]; [discriminate H|].
  change (String a p ++ q) with (String a (p ++ q)) in H.
  rewrite prefix_cons in *.
  apply andb_prop in H. destruct H as [Hab Hp].
  now rewrite Hab, (IH s Hp).
Qed.

Lemma includes_app_l (p q s : string) :
  includes (p ++ q) s = true -> includes p s = true.
Proof.
  induction s as [|b s IH]; cbn [includes]; intro H.
  - rewrite orb_false_r in *. now apply prefix_app_l with q.
  - apply orb_prop in H. destruct H as [H|H].
    + now rewrite (prefix_app_l p q _ H).
    + rewrite (IH H). apply orb_true_r.
Qed.

(** A command that mentions no color does not contain "bright", so its
    brightness pattern can only match through "dim". *)
Lemma brightness_without_color (command : string) :
  mentionsColor command = false ->
  includesAny rxBrightness command = includes "dim" command.
Proof.
  unfold mentionsColor, allVariations, COLOR_VARIATIONS, includesAny,
    rxBrightness.
  cbn [flat_map snd app some existsb]. intro H.
  repeat (apply orb_false_elim in H; destruct H as [? H]).
  assert (Hb : includes "bright" command = false) by assumption.
  assert (Hn : includes "brightness" command = false).
  { destruct (includes "brightness" command) eqn:Hn; [|reflexivity].
    rewrite <- Hb. symmetry. now apply (includes_app_l "bright" "ness"). }
  rewrite Hb, Hn. now rewrite orb_false_r.
Qed.

(** "dim" is both a brightness word and a level word. *)
Lemma dim_sets_brightness (command : string) :
  includes "dim" command = true ->
  includesAny rxBrightness command && includesAny levelWords command = true.
Proof.
  intro H. unfold includesAny, levelWords, rxBrightness, rxFull, rxHalf, rxLow.
  cbn [app some existsb]. rewrite H.
  now rewrite !orb_true_r.
Qed.

(** * The command interpreter *)

(** ** Power commands *)




(** ** Brightness against color *)

(** When a brightness word and a level word occur, the brightness step
    overwrites whatever the power and color steps set. *)
Lemma brightness_overwrites (text : string) :
  includesAny rxBrightness (toLowerCase text) = true ->
  includesAny levelWords (toLowerCase text) = true ->
  action (interpret text) = SetBrightness
  /\ In (color (interpret text)) ["100"; "50"; "20"].
Proof.
  intros Hb Hl. rewrite interpret_lower. cbv zeta. rewrite Hb, Hl.
  cbn [andb action color].
  split; [reflexivity|].
  destruct (includesAny rxFull _); [now left|].
  destruct (includesAny rxHalf _); [right; now left|right; right; now left].
Qed.

(** Without a level word the brightness step sets nothing. *)
Lemma brightness_idle (text : string) :
  includesAny rxBrightness (toLowerCase text)
  && includesAny levelWords (toLowerCase text) = false ->
  interpret text =
  match firstColor (toLowerCase text) with
  | Some c => mkCommand SetColor c
  | None =>
      if powerPattern (toLowerCase text)
      then mkCommand
             (if includes "off" (toLowerCase text) then TurnOff else TurnOn) ""
      else mkCommand NoAction ""
  end.
Proof. intro H. rewrite interpret_lower. cbv zeta. now rewrite H. Qed.

(** C2, as stated, fails: "make it bright red" contains the color words
    "bright" and "red" and the brightness word "bright", but no level
    word, so the brightness step sets nothing and the color command
    stands. *)
Lemma C2_color_stands_without_level :
  mentionsColor (toLowerCase "make it bright red") = true
  /\ includesAny rxBrightness (toLowerCase "make it bright red") = true
  /\ interpret "make it bright red" = mkCommand SetColor "red"
  /\ action (interpret "make it bright red") <> SetBrightness.
Proof. repeat split; try reflexivity. discriminate. Qed.

(** C2, amended: for every transcript that contains a color word and a
    brightness word, the interpreter returns the brightness command, with
    one of the three levels and without the color, when the text also
    contains a level word (full, max, maximum, brightest, half, medium,
    mid, low, dim, minimum); with no level word the brightness step sets
    nothing and the result is the color command of the earliest color. *)
Theorem C2_brightness_overwrites_color (text : string) :
  mentionsColor (toLowerCase text) = true ->
  includesAny rxBrightness (toLowerCase text) = true ->
  (includesAny levelWords (toLowerCase text) = true ->
     action (interpret text) = SetBrightness
     /\ In (color (interpret text)) ["100"; "50"; "20"])
  /\ (includesAny levelWords (toLowerCase text) = false ->
     action (interpret text) = SetColor
     /\ firstColor (toLowerCase text) = Some (color (interpret text))).
Proof.
  intros Hc Hb. split; intro Hl.
  - now apply brightness_overwrites.
  - rewrite brightness_idle by (rewrite Hl; apply andb_false_r).
    destruct (firstColor (toLowerCase text)) as [c|] eqn:Hf.
    + now split.
    + apply firstColor_none in Hf. rewrite Hf in Hc. discriminate Hc.
Qed.

Lemma C2_brightness_overwrites_color_witness :
  mentionsColor (toLowerCase "Make it red and dim") = true
  /\ includesAny rxBrightness (toLowerCase "Make it red and dim") = true
  /\ action (interpret "Make it red and dim") = SetBrightness.
Proof.
  split; [reflexivity|]. split; [reflexivity|].
  apply (proj1 (C2_brightness_overwrites_color "Make it red and dim"
                  eq_refl eq_refl)).
  reflexivity.
Defined.

(** ** Color synonyms *)

(** C3: for every color of the table and every synonym of it,
    "make it " followed by the synonym is interpreted as SetColor with
    the canonical name of the color. *)
Theorem C3_make_it_synonym (c : string) (variations : list string)
    (s : string) :
  In (c, variations) COLOR_VARIATIONS -> In s variations ->
  interpret ("make it " ++ s) = mkCommand SetColor c.
Proof.
  intros Hc Hs. unfold COLOR_VARIATIONS in Hc. cbn [In] in Hc.
  repeat (destruct Hc as [Hc|Hc];
          [injection Hc as <- <-; cbn [In] in Hs;
           repeat (destruct Hs as [<-|Hs]; [reflexivity|]); contradiction|]).
  contradiction.
Qed.

Lemma C3_make_it_synonym_witness :
  interpret "make it crimson" = mkCommand SetColor "red".
Proof.
  apply (C3_make_it_synonym "red" ["red"; "crimson"; "scarlet"] "crimson").
  - left. reflexivity.
  - right. left. reflexivity.
Defined.

(** ** Brightness levels *)

(** C4: whenever the interpreter returns SetBrightness, the parameter is
    "100", "50" or "20", and it is chosen by keyword: "100" when the text
    contains full, max, maximum or brightest; otherwise "50" when it
    contains half, medium or mid; otherwise "20", and then it contains
    low, dim or minimum. *)
Theorem C4_brightness_levels (text : string) :
  action (interpret text) = SetBrightness ->
  (parameter (interpret text) = Some "100"
   /\ includesAny rxFull (toLowerCase text) = true)
  \/ (parameter (interpret text) = Some "50"
      /\ includesAny rxHalf (toLowerCase text) = true
      /\ includesAny rxFull (toLowerCase text) = false)
  \/ (parameter (interpret text) = Some "20"
      /\ includesAny rxLow (toLowerCase text) = true
      /\ includesAny rxFull (toLowerCase text) = false
      /\ includesAny rxHalf (toLowerCase text) = false).
Proof.
  rewrite interpret_lower. cbv zeta.
  destruct (includesAny rxBrightness (toLowerCase text)
            && includesAny levelWords (toLowerCase text)) eqn:Hb.
  - intros _. apply andb_prop in Hb. destruct Hb as [_ Hl].
    unfold levelWords, includesAny, some in Hl. rewrite !existsb_app in Hl.
    unfold includesAny, some.
    destruct (existsb _ rxFull); [now left|].
    destruct (existsb _ rxHalf); [right; now left|].
    right; right. now repeat split.
  - destruct (firstColor (toLowerCase text));
      [discriminate|].
    destruct (powerPattern (toLowerCase text)); [|discriminate].
    destruct (includes "off" (toLowerCase text)); discriminate.
Qed.

Lemma C4_brightness_levels_witness :
  action (interpret "set brightness to max") = SetBrightness
  /\ parameter (interpret "set brightness to max") = Some "100".
Proof.
  split; [reflexivity|].
  destruct (C4_brightness_levels "set brightness to max" eq_refl)
    as [[H _]|[(_ & _ & H)|(_ & _ & H & _)]];
    [exact H|discriminate H|discriminate H].
Defined.

(** ** Order of the colors *)

(** C5, as stated, fails: "make it red or blue and dim" contains the
    synonyms of two colors, red being the earlier one, and the result is
    the brightness command, since "dim" makes the brightness step
    overwrite the color. *)
Lemma C5_brightness_overwrites_earliest_color :
  colorsMentioned (toLowerCase "make it red or blue and dim")
    = ["red"; "blue"]
  /\ interpret "make it red or blue and dim" = mkCommand SetBrightness "20"
  /\ action (interpret "make it red or blue and dim") <> SetColor.
Proof. repeat split; try reflexivity. discriminate. Qed.

(** C5, amended: the color loop follows the order of the table and stops
    at the first color with a synonym in the text; for every transcript
    that contains synonyms of one or several colors, and on which the
    brightness step sets nothing (no brightness word, or no level word),
    the interpreter returns SetColor with the canonical name of the
    earliest such color of the table. *)
Theorem C5_earliest_color_wins (text c : string) :
  EarliestColor (toLowerCase text) c ->
  includesAny rxBrightness (toLowerCase text)
  && includesAny levelWords (toLowerCase text) = false ->
  interpret text = mkCommand SetColor c.
Proof.
  intros He Hb. rewrite (brightness_idle _ Hb).
  now rewrite (EarliestColor_firstColor _ _ He).
Qed.

Lemma C5_earliest_color_wins_witness :
  colorsMentioned (toLowerCase "make it a light shade of red-orange")
    = ["red"; "white"; "orange"]
  /\ interpret "make it a light shade of red-orange" = mkCommand SetColor "red".
Proof.
  split; [reflexivity|].
  apply C5_earliest_color_wins; [|reflexivity].
  exists [], ["red"; "crimson"; "scarlet"], (tl COLOR_VARIATIONS).
  split; [reflexivity|]. split; [reflexivity|]. intros entry [].
Defined.

(** ** Totality and the unrecognized command *)

(** C6: the interpreter is a total function: on every input it returns a
    command whose action is one of the five actions; when neither the
    power pattern, nor a color synonym, nor the brightness pattern
    occurs, the command is NoAction without parameter, as on the empty
    string and on "banana". *)
Theorem C6_total_and_unrecognized :
  (forall text,
     In (action (interpret text))
        [TurnOn; TurnOff; SetColor; SetBrightness; NoAction])
  /\ (forall text,
        powerPattern (toLowerCase text) = false ->
        mentionsColor (toLowerCase text) = false ->
        includesAny rxBrightness (toLowerCase text) = false ->
        interpret text = mkCommand NoAction ""
        /\ parameter (interpret text) = None)
  /\ interpret "" = mkCommand NoAction ""
  /\ interpret "banana" = mkCommand NoAction "".
Proof.
  split; [|split; [|split; reflexivity]].
  - intro text. rewrite interpret_lower. cbv zeta.
    destruct (_ && _); [cbn; tauto|].
    destruct (firstColor _); [cbn; tauto|].
    destruct (powerPattern _); [|cbn; tauto].
    destruct (includes "off" _); cbn; tauto.
  - intros text Hp Hc Hb. rewrite interpret_lower. cbv zeta.
    apply firstColor_none in Hc. rewrite Hb, Hc, Hp. now split.
Qed.

Lemma C6_total_and_unrecognized_witness :
  interpret "Banana " = mkCommand NoAction ""
  /\ parameter (interpret "Banana ") = None.
Proof.
  apply (proj1 (proj2 C6_total_and_unrecognized) "Banana "); reflexivity.
Defined.

(** ** The parameter invariant *)

(** C7: on every input the command of the interpreter carries a
    parameter if and only if its action is SetColor or SetBrightness;
    and the payload that [sendCommand] builds from it holds, besides the
    action, exactly that parameter, under the key of the action. *)
Theorem C7_parameter_iff (text : string) :
  (parameter (interpret text) <> None
   <-> action (interpret text) = SetColor
       \/ action (interpret text) = SetBrightness)
  /\ payload (action (interpret text)) (Some (color (interpret text)))
     = match parameter (interpret text) with
       | Some p =>
           [("action", action (interpret text));
            (if String.eqb (action (interpret text)) SetColor
             then "color" else "brightness", p)]
       | None => [("action", action (interpret text))]
       end.
Proof.
  rewrite interpret_lower. cbv zeta.
  destruct (_ && _).
  { destruct (includesAny rxFull _); [|destruct (includesAny rxHalf _)];
      (split; [split; [intros _; now right|discriminate]|reflexivity]). }
  destruct (firstColor (toLowerCase text)) as [c|] eqn:Hc.
  { apply firstColor_name in Hc. cbn [In] in Hc.
    repeat (destruct Hc as [<-|Hc];
      [split; [split; [intros _; now left|discriminate]|reflexivity]|]).
    contradiction. }
  destruct (powerPattern _); [destruct (includes "off" _)|];
    (split; [split; [intro H; now elim H|intros [H|H]; discriminate H]
            |reflexivity]).
Qed.

(** ** The color table *)

(** C8: the synonym sets of the table are pairwise disjoint: a word that
    is a synonym in two entries of the table is a synonym of one and the
    same color, the two entries being the same. *)
Theorem C8_synonyms_disjoint (c1 c2 : string) (s1 s2 : list string)
    (w : string) :
  In (c1, s1) COLOR_VARIATIONS -> In (c2, s2) COLOR_VARIATIONS ->
  In w s1 -> In w s2 -> c1 = c2 /\ s1 = s2.
Proof.
  intros H1 H2 Hw1 Hw2. unfold COLOR_VARIATIONS in H1, H2.
  cbn [In] in H1, H2.
  repeat (destruct H1 as [H1|H1];
    [injection H1 as <- <-; cbn [In] in Hw1;
     repeat (destruct Hw1 as [<-|Hw1];
       [repeat (destruct H2 as [H2|H2];
          [injection H2 as <- <-; cbn [In] in Hw2;
           repeat (destruct Hw2 as [Hw2|Hw2];
                   [first [now split|discriminate Hw2]|]);
           contradiction|]);
        contradiction|]);
     contradiction|]).
  contradiction.
Qed.

Lemma C8_synonyms_disjoint_witness :
  In "crimson" ["red"; "crimson"; "scarlet"]
  /\ "red" = "red" /\ ["red"; "crimson"; "scarlet"] = ["red"; "crimson"; "scarlet"].
Proof.
  assert (Hw : In "crimson" ["red"; "crimson"; "scarlet"])
    by (right; left; reflexivity).
  assert (Ht : In ("red", ["red"; "crimson"; "scarlet"]) COLOR_VARIATIONS)
    by (left; reflexivity).
  split; [exact Hw|].
  exact (C8_synonyms_disjoint "red" "red" _ _ "crimson" Ht Ht Hw Hw).
Defined.

(** ** "on" inside a word *)

(** C10: the power pattern takes "on" as a substring, not as a word: for
    every input whose lower-cased text contains "on" but not "off", no
    color lead-in phrase, not "color", no color synonym and none of the
    brightness words, the interpreter returns TurnOn. *)
Theorem C10_on_inside_a_word (text : string) :
  includes "on" (toLowerCase text) = true ->
  includes "off" (toLowerCase text) = false ->
  includesAny colorPhrases (toLowerCase text) = false ->
  includes "color" (toLowerCase text) = false ->
  mentionsColor (toLowerCase text) = false ->
  includesAny rxBrightness (toLowerCase text) = false ->
  interpret text = mkCommand TurnOn "".
Proof.
  intros Hon Hoff _ _ Hc Hb. rewrite interpret_lower. cbv zeta.
  apply firstColor_none in Hc. rewrite Hb, Hc, Hoff. cbn [andb].
  unfold powerPattern, includesAny, rxOnOff. cbn [some existsb].
  rewrite Hon. now rewrite orb_true_r.
Qed.

Lemma C10_on_inside_a_word_witness :
  interpret "Salmon on Monday" = mkCommand TurnOn "".
Proof. apply C10_on_inside_a_word; reflexivity. Defined.

(** * The transport *)

Lemma ok_spec (status : nat) :
  ok status = true <-> 200 <= status /\ status <= 299.
Proof.
  unfold ok. rewrite andb_true_iff, !Nat.leb_le. reflexivity.
Qed.

Lemma Is2xx_Response (status : nat) (body : Thrown + string) :
  Is2xx (Response status body) <-> ok status = true.
Proof.
  rewrite ok_spec. split.
  - intros (st & b & [= <- <-] & H). exact H.
  - intro H. now exists status, body.
Qed.

Lemma not_Is2xx_Rejected (cause : Thrown) : ~ Is2xx (Rejected cause).
Proof. intros (st & b & H & _). discriminate H. Qed.

Section TransportFacts.

Variable encode : string -> string.
Variables OS webhookUrl : string.
Variable action : string.
Variable value : option string.

Local Abbreviation url query := (trim webhookUrl ++ "?" ++ query).
Local Abbreviation run net :=
  (sendCommand encode OS webhookUrl net action value).
Local Abbreviation runSimple net :=
  (sendCommandSimple encode OS webhookUrl net action value).

(** With a blank [webhookUrl] neither screen issues a request. *)
Lemma sendCommand_blank_url (net : FetchResult) :
  truthy (trim webhookUrl) = false ->
  requests (run net) = [] /\ requests (runSimple net) = [].
Proof.
  intro H. unfold sendCommand, sendCommandSimple.
  rewrite H. cbn [negb]. unfold missingUrlGuard.
  now destruct (notWeb OS).
Qed.

Hypothesis url_set : truthy (trim webhookUrl) = true.

Lemma sendCommand_requests (net : FetchResult) :
  requests (run net)
  = [("GET", url (queryString encode (payload action value)))].
Proof.
  unfold sendCommand. rewrite url_set. cbn [negb].
  destruct net as [cause|status body]; [reflexivity|].
  cbn [fetch Eff.bind Eff.tryCatchFinally fst snd].
  destruct (ok status); [reflexivity|].
  destruct body; reflexivity.
Qed.

Lemma sendCommandSimple_requests (net : FetchResult) :
  requests (runSimple net)
  = [("GET", url (queryString encode (payloadSimple action value)))].
Proof.
  unfold sendCommandSimple. rewrite url_set. cbn [negb].
  destruct net as [cause|status body];
    [cbn; now destruct (notWeb OS)|].
  cbn [fetch Eff.bind Eff.tryCatchFinally fst snd].
  destruct (ok status); [|destruct (notWeb OS); reflexivity].
  destruct (notWeb OS); reflexivity.
Qed.

Lemma sendCommand_rejected (cause : Thrown) :
  reported (run (Rejected cause)) = [cause]
  /\ lastCommands (run (Rejected cause)) = []
  /\ reported (runSimple (Rejected cause)) = [cause].
Proof.
  unfold sendCommand, sendCommandSimple.
  rewrite url_set. cbn [negb].
  repeat split; try reflexivity.
  cbn. now destruct (notWeb OS).
Qed.

Lemma sendCommand_2xx (status : nat) (body : Thrown + string) :
  ok status = true ->
  reported (run (Response status body)) = []
  /\ lastCommands (run (Response status body))
     = [action ++ " " ++ orEmpty value]
  /\ reported (runSimple (Response status body)) = [].
Proof.
  intro Hok. unfold sendCommand, sendCommandSimple.
  rewrite url_set. cbn [negb fetch Eff.bind Eff.tryCatchFinally fst snd].
  rewrite Hok. repeat split; try reflexivity.
  now destruct (notWeb OS).
Qed.

(** The error of a response outside 200..299, as the extended screen
    builds it once the body is read and as the simple screen builds it
    whether the body is read or not. *)
Lemma sendCommand_not_2xx (status : nat) (body : Thrown + string) :
  ok status = false ->
  lastCommands (run (Response status body)) = []
  /\ reported (run (Response status body))
     = [match body with
        | inr text =>
            ErrorObject ("HTTP " ++ showStatus status ++ ": " ++ text)
        | inl cause => cause
        end]
  /\ In ("Error", "Failed to send command. Please check your webhook URL.")
        (alerts (run (Response status body)))
  /\ reported (runSimple (Response status body))
     = [ErrorObject
          ("HTTP " ++ showStatus status ++ ": " ++
           match body with inr text => text | inl _ => "Unknown error" end)].
Proof.
  intro Hok. unfold sendCommand, sendCommandSimple.
  rewrite url_set. cbn [negb fetch Eff.bind Eff.tryCatchFinally fst snd].
  rewrite Hok. cbn [negb].
  destruct body as [cause|text]; repeat split; try reflexivity;
    try (cbn; now left); cbn; now destruct (notWeb OS).
Qed.

End TransportFacts.

(** The query string of the two payload shapes. *)
Lemma queryString_action (encode : string -> string) (a : string) :
  queryString encode [("action", a)] = encode "action" ++ "=" ++ encode a.
Proof. reflexivity. Qed.

Lemma queryString_parameter (encode : string -> string) (a k v : string) :
  queryString encode [("action", a); (k, v)]
  = (encode "action" ++ "=" ++ encode a) ++ "&" ++ encode k ++ "=" ++ encode v.
Proof. reflexivity. Qed.

(** C9 fails on the extended screen, by a slip that the simple screen
    does not make: for a response with a status outside 200..299 whose
    body cannot be read, [await response.text()] rejects inside the
    template of the error, so the [Error] with the status code is never
    built and what the extended screen reports is the bare cause of the
    rejection, with its fixed alert; the simple screen, which guards the
    read with [.catch(() => "Unknown error")], reports the status code. *)
Theorem C9_unread_body_loses_status (encode : string -> string)
    (OS webhookUrl : string) (status : nat) (cause : Thrown)
    (action : string) (value : option string) :
  truthy (trim webhookUrl) = true ->
  ok status = false ->
  reported (sendCommand encode OS webhookUrl (Response status (inl cause))
              action value) = [cause]
  /\ alerts (sendCommand encode OS webhookUrl (Response status (inl cause))
               action value)
     = [("Error", "Failed to send command. Please check your webhook URL.")]
  /\ reported (sendCommandSimple encode OS webhookUrl
                 (Response status (inl cause)) action value)
     = [ErrorObject ("HTTP " ++ showStatus status ++ ": Unknown error")].
Proof.
  intros Hurl Hok. unfold sendCommand, sendCommandSimple.
  rewrite Hurl. cbn [negb fetch Eff.bind Eff.tryCatchFinally fst snd].
  rewrite Hok. cbn [negb].
  repeat split; try reflexivity. cbn. now destruct (notWeb OS).
Qed.

Lemma C9_unread_body_loses_status_witness :
  sendCommand FormUrlEncoded.encode "ios" "https://n8n.local/hook"
    (Response 500 (inl (ErrorObject "Network request failed")))
    TurnOn None
  = [SetIsLoading true;
     Fetch "GET" [] "https://n8n.local/hook?action=turn_on";
     ConsoleError "Error sending command:"
       (ErrorObject "Network request failed");
     Alert "Error" "Failed to send command. Please check your webhook URL.";
     SetIsLoading false]
  /\ reported (sendCommand FormUrlEncoded.encode "ios"
                 "https://n8n.local/hook"
                 (Response 500 (inl (ErrorObject "Network request failed")))
                 TurnOn None)
     = [ErrorObject "Network request failed"]
  /\ reported (sendCommandSimple FormUrlEncoded.encode "ios"
                 "https://n8n.local/hook"
                 (Response 500 (inl (ErrorObject "Network request failed")))
                 "on" None)
     = [ErrorObject "HTTP 500: Unknown error"].
Proof.
  split; [reflexivity|]. split.
  - exact (proj1 (C9_unread_body_loses_status FormUrlEncoded.encode "ios"
                    "https://n8n.local/hook" 500
                    (ErrorObject "Network request failed") TurnOn None
                    eq_refl eq_refl)).
  - exact (proj2 (proj2 (C9_unread_body_loses_status FormUrlEncoded.encode
                           "ios" "https://n8n.local/hook" 500
                           (ErrorObject "Network request failed") "on" None
                           eq_refl eq_refl))).
Defined.

Lemma append_empty_r (s : string) : s ++ "" = s.
Proof. induction s as [|c s IH]; [reflexivity|]. cbn. now rewrite IH. Qed.

Lemma query_flat (key value rest : string) :
  (key ++ "=" ++ value) ++ rest = key ++ "=" ++ value ++ rest.
Proof.
  induction key as [|c k IH]; [reflexivity|].
  change (String c ((k ++ "=" ++ value) ++ rest)
          = String c (k ++ "=" ++ value ++ rest)).
  now rewrite IH.
Qed.

(** The address requested by each screen, written out. *)
Lemma sendCommand_url (encode : string -> string) (OS webhookUrl : string)
    (net : FetchResult) (action : string) (value : option string) :
  truthy (trim webhookUrl) = true ->
  requests (sendCommand encode OS webhookUrl net action value)
  = [("GET",
      trim webhookUrl ++ "?" ++ encode "action" ++ "=" ++ encode action
      ++ (if String.eqb action "set_color" && truthyOpt value
          then "&" ++ encode "color" ++ "=" ++ encode (orEmpty value)
          else if String.eqb action "set_brightness" && truthyOpt value
          then "&" ++ encode "brightness" ++ "=" ++ encode (orEmpty value)
          else ""))].
Proof.
  intro Hurl. rewrite (sendCommand_requests encode OS webhookUrl action value
                         Hurl net).
  unfold payload.
  destruct (String.eqb action "set_color" && truthyOpt value);
    [|destruct (String.eqb action "set_brightness" && truthyOpt value)];
    rewrite ?queryString_parameter, ?queryString_action, ?query_flat,
      ?append_empty_r;
    reflexivity.
Qed.

Lemma sendCommandSimple_url (encode : string -> string)
    (OS webhookUrl : string) (net : FetchResult) (action : string)
    (color : option string) :
  truthy (trim webhookUrl) = true ->
  requests (sendCommandSimple encode OS webhookUrl net action color)
  = [("GET",
      trim webhookUrl ++ "?" ++ encode "action" ++ "=" ++ encode action
      ++ (if truthyOpt color
          then "&" ++ encode "color" ++ "=" ++ encode (orEmpty color)
          else ""))].
Proof.
  intro Hurl. rewrite (sendCommandSimple_requests encode OS webhookUrl action
                         color Hurl net).
  unfold payloadSimple.
  destruct (truthyOpt color);
    rewrite ?queryString_parameter, ?queryString_action, ?query_flat,
      ?append_empty_r;
    reflexivity.
Qed.

(** X25: with a webhook URL set, each screen's [sendCommand] issues
    exactly one GET request, on the trimmed URL followed by the encoded
    action and, when it is sent, the encoded parameter under its key;
    nothing is reported, and the extended screen records the command,
    exactly when the answer is a response with a status in 200..299; a
    response with another status is reported as an error with the message
    "HTTP status: body" by the simple screen in every case ("Unknown
    error" standing for a body that cannot be read) and by the extended
    screen when the body was read. *)
Theorem transport_one_get_and_outcome (encode : string -> string)
    (OS webhookUrl : string) (net : FetchResult) (action : string)
    (value : option string) :
  truthy (trim webhookUrl) = true ->
  (requests (sendCommand encode OS webhookUrl net action value)
   = [("GET",
       trim webhookUrl ++ "?" ++ encode "action" ++ "=" ++ encode action
       ++ (if String.eqb action "set_color" && truthyOpt value
           then "&" ++ encode "color" ++ "=" ++ encode (orEmpty value)
           else if String.eqb action "set_brightness" && truthyOpt value
           then "&" ++ encode "brightness" ++ "=" ++ encode (orEmpty value)
           else ""))]
   /\ requests (sendCommandSimple encode OS webhookUrl net action value)
      = [("GET",
          trim webhookUrl ++ "?" ++ encode "action" ++ "=" ++ encode action
          ++ (if truthyOpt value
              then "&" ++ encode "color" ++ "=" ++ encode (orEmpty value)
              else ""))])
  /\ (reported (sendCommand encode OS webhookUrl net action value) = []
      <-> Is2xx net)
  /\ (lastCommands (sendCommand encode OS webhookUrl net action value)
      = [action ++ " " ++ orEmpty value]
      <-> Is2xx net)
  /\ (reported (sendCommandSimple encode OS webhookUrl net action value) = []
      <-> Is2xx net)
  /\ (forall status body,
        net = Response status body -> ~ Is2xx net ->
        lastCommands (sendCommand encode OS webhookUrl net action value) = []
        /\ (forall text, body = inr text ->
              reported (sendCommand encode OS webhookUrl net action value)
              = [ErrorObject ("HTTP " ++ showStatus status ++ ": " ++ text)])
        /\ reported (sendCommandSimple encode OS webhookUrl net action value)
           = [ErrorObject
                ("HTTP " ++ showStatus status ++ ": "
                 ++ match body with
                    | inr text => text
                    | inl _ => "Unknown error"
                    end)]).
Proof.
  intro Hurl. split.
  { split; [now apply sendCommand_url|now apply sendCommandSimple_url]. }
  destruct net as [cause|status body].
  - destruct (sendCommand_rejected encode OS webhookUrl action value Hurl cause)
      as (Hr & Hl & Hs).
    pose proof (not_Is2xx_Rejected cause) as Hn.
    rewrite Hr, Hl, Hs.
    split; [split; [discriminate|intro H; now elim Hn]|].
    split; [split; [discriminate|intro H; now elim Hn]|].
    split; [split; [discriminate|intro H; now elim Hn]|].
    intros st b Heq. discriminate Heq.
  - destruct (ok status) eqn:Hok.
    + destruct (sendCommand_2xx encode OS webhookUrl action value Hurl
                  status body Hok) as (Hr & Hl & Hs).
      assert (H2 : Is2xx (Response status body))
        by now apply Is2xx_Response.
      rewrite Hr, Hl, Hs.
      split; [now split|]. split; [now split|]. split; [now split|].
      intros st b _ Hn. now elim Hn.
    + destruct (sendCommand_not_2xx encode OS webhookUrl action value Hurl
                  status body Hok) as (Hl & Hr & _ & Hs).
      assert (H2 : ~ Is2xx (Response status body)).
      { rewrite Is2xx_Response, Hok. discriminate. }
      rewrite Hr, Hl, Hs.
      split; [split; [discriminate|intro H; now elim H2]|].
      split; [split; [discriminate|intro H; now elim H2]|].
      split; [split; [discriminate|intro H; now elim H2]|].
      intros st b Heq _. injection Heq as <- <-.
      split; [reflexivity|]. split; [now intros text ->|reflexivity].
Qed.

Lemma transport_one_get_and_outcome_witness :
  requests (sendCommand FormUrlEncoded.encode "ios" "https://n8n.local/hook "
              (Response 503 (inr "busy")) SetBrightness (Some "50"))
    = [("GET", "https://n8n.local/hook?action=set_brightness&brightness=50")]
  /\ requests (sendCommandSimple FormUrlEncoded.encode "ios"
                 "https://n8n.local/hook "
                 (Response 503 (inr "busy")) "color" (Some "#FF4444"))
     = [("GET", "https://n8n.local/hook?action=color&color=%23FF4444")]
  /\ reported (sendCommand FormUrlEncoded.encode "ios"
                 "https://n8n.local/hook "
                 (Response 503 (inr "busy")) SetBrightness (Some "50"))
     = [ErrorObject "HTTP 503: busy"].
Proof.
  assert (Hno : ~ Is2xx (Response 503 (inr "busy"))).
  { intros (st & b & Heq & Hlo & Hhi). injection Heq as <- <-. lia. }
  destruct (transport_one_get_and_outcome FormUrlEncoded.encode "ios"
              "https://n8n.local/hook " (Response 503 (inr "busy"))
              SetBrightness (Some "50") eq_refl)
    as ((Hreq & _) & _ & _ & _ & Herr).
  destruct (transport_one_get_and_outcome FormUrlEncoded.encode "ios"
              "https://n8n.local/hook " (Response 503 (inr "busy"))
              "color" (Some "#FF4444") eq_refl)
    as ((_ & Hsimple) & _).
  split; [exact Hreq|]. split; [exact Hsimple|].
  destruct (Herr 503 (inr "busy") eq_refl Hno) as (_ & Hrep & _).
  now apply Hrep.
Defined.

(** * Further properties of the two screens *)

(** ** Occurrences as decompositions *)

Lemma prefix_split (p s : string) :
  prefix p s = true <-> exists b, s = p ++ b.
Proof.
  revert s. induction p as [|a p IH]; intro s.
  - rewrite prefix_empty. split; [intros _; now exists s|reflexivity].
  - destruct s as [|c s].
    + split; [discriminate|intros [b Hb]; discriminate Hb].
    + rewrite prefix_cons, andb_true_iff, IH. split.
      * intros [Hac [b ->]]. apply Ascii.eqb_eq in Hac. subst c. now exists b.
      * intros [b Hb]. injection Hb as -> ->.
        split; [apply Ascii.eqb_refl|now exists b].
Qed.

Lemma append_assoc (a b c : string) : (a ++ b) ++ c = a ++ (b ++ c).
Proof. induction a as [|x a IH]; [reflexivity|]. cbn. now rewrite IH. Qed.

Lemma includes_split (p s : string) :
  includes p s = true <-> exists a b, s = a ++ p ++ b.
Proof.
  induction s as [|c s IH]; cbn [includes].
  - rewrite orb_false_r, prefix_split. split.
    + intros [b Hb]. now exists "", b.
    + intros (a & b & H). destruct a; [now exists b|discriminate H].
  - rewrite orb_true_iff, prefix_split, IH. split.
    + intros [[b Hb]|(a & b & ->)]; [now exists "", b|].
      now exists (String c a), b.
    + intros (a & b & H). destruct a as [|x a].
      * left. now exists b.
      * right. injection H as _ ->. now exists a, b.
Qed.

(** A keyword that occurs in a phrase occurs wherever the phrase does. *)
Lemma includes_trans (p q s : string) :
  includes p q = true -> includes q s = true -> includes p s = true.
Proof.
  rewrite !includes_split. intros (a & b & ->) (a' & b' & ->).
  exists (a' ++ a), (b ++ b'). now rewrite !append_assoc.
Qed.

(** ** Normalizing twice *)

Lemma lowerChar_idem (c : ascii) : lowerChar (lowerChar c) = lowerChar c.
Proof. each_char c; reflexivity. Qed.

Lemma isWhiteSpace_lowerChar (c : ascii) :
  isWhiteSpace (lowerChar c) = isWhiteSpace c.
Proof. each_char c; reflexivity. Qed.

Lemma toLowerCase_idem (s : string) :
  toLowerCase (toLowerCase s) = toLowerCase s.
Proof.
  induction s as [|c s IH]; [reflexivity|].
  cbn. now rewrite lowerChar_idem, IH.
Qed.

Lemma toLowerCase_trimStart (s : string) :
  toLowerCase (trimStart s) = trimStart (toLowerCase s).
Proof.
  induction s as [|c s IH]; [reflexivity|].
  cbn [trimStart toLowerCase]. rewrite isWhiteSpace_lowerChar.
  now destruct (isWhiteSpace c).
Qed.

Lemma toLowerCase_trimEnd (s : string) :
  toLowerCase (trimEnd s) = trimEnd (toLowerCase s).
Proof.
  induction s as [|c s IH]; [reflexivity|].
  cbn [trimEnd toLowerCase]. rewrite <- IH, isWhiteSpace_lowerChar.
  destruct (trimEnd s) as [|d t]; [now destruct (isWhiteSpace c)|reflexivity].
Qed.

Lemma toLowerCase_trim (s : string) :
  toLowerCase (trim s) = trim (toLowerCase s).
Proof.
  unfold trim. now rewrite toLowerCase_trimEnd, toLowerCase_trimStart.
Qed.

Lemma trimEnd_idem (s : string) : trimEnd (trimEnd s) = trimEnd s.
Proof.
  induction s as [|c s IH]; [reflexivity|].
  cbn [trimEnd]. destruct (trimEnd s) as [|d t] eqn:Ht.
  - destruct (isWhiteSpace c) eqn:Hc; [reflexivity|].
    cbn [trimEnd]. now rewrite Hc.
  - change (trimEnd (String c (String d t))) with
      (match trimEnd (String d t) with
       | EmptyString => if isWhiteSpace c then EmptyString
                        else String c EmptyString
       | u => String c u
       end).
    now rewrite IH.
Qed.

(** A string that is empty or starts with a character that is no white
    space is left alone by [trimStart]. *)
Lemma trimStart_fixed (s : string) :
  match s with EmptyString => True | String c _ => isWhiteSpace c = false end ->
  trimStart s = s.
Proof. destruct s as [|c s]; [reflexivity|]. cbn. now intros ->. Qed.

Lemma trimStart_head (s : string) :
  match trimStart s with
  | EmptyString => True
  | String c _ => isWhiteSpace c = false
  end.
Proof.
  induction s as [|c s IH]; [exact I|].
  cbn [trimStart]. destruct (isWhiteSpace c) eqn:Hc; [exact IH|exact Hc].
Qed.

Lemma trimEnd_head (s : string) :
  match s with EmptyString => True | String c _ => isWhiteSpace c = false end ->
  match trimEnd s with
  | EmptyString => True
  | String c _ => isWhiteSpace c = false
  end.
Proof.
  destruct s as [|c s]; [intros _; exact I|]. intro Hc.
  cbn [trimEnd]. destruct (trimEnd s); [now rewrite Hc|exact Hc].
Qed.

Lemma trim_idem (s : string) : trim (trim s) = trim s.
Proof.
  unfold trim.
  rewrite (trimStart_fixed (trimEnd (trimStart s))).
  - apply trimEnd_idem.
  - apply trimEnd_head, trimStart_head.
Qed.

Lemma normalize_idem (text : string) :
  normalize (normalize text) = normalize text.
Proof.
  unfold normalize.
  now rewrite toLowerCase_trim, toLowerCase_idem, trim_idem.
Qed.

(** ** When the interpreter finds nothing *)

Lemma interpret_none_iff (text : string) :
  action (interpret text) = NoAction
  <-> powerPattern (toLowerCase text) = false
      /\ mentionsColor (toLowerCase text) = false
      /\ includesAny rxBrightness (toLowerCase text) = false.
Proof.
  rewrite interpret_lower. cbv zeta. split.
  - destruct (includesAny rxBrightness (toLowerCase text)
              && includesAny levelWords (toLowerCase text)) eqn:Hb;
      [discriminate|].
    destruct (firstColor (toLowerCase text)) as [c|] eqn:Hc; [discriminate|].
    apply firstColor_none in Hc.
    destruct (powerPattern (toLowerCase text)).
    { destruct (includes "off" (toLowerCase text)); discriminate. }
    intros _. repeat split; [exact Hc|].
    rewrite (brightness_without_color _ Hc).
    destruct (includes "dim" (toLowerCase text)) eqn:Hd; [|reflexivity].
    rewrite (dim_sets_brightness _ Hd) in Hb. discriminate Hb.
  - intros (Hp & Hc & Hb). apply firstColor_none in Hc.
    now rewrite Hb, Hc, Hp.
Qed.

(** ** Normalization before the interpreter *)

(** X1: the transcription path hands [processVoiceCommand] a text that is
    already trimmed and lower-cased; normalizing twice, in either order,
    changes nothing for the interpreter. *)
Theorem interpret_prenormalized (text : string) :
  interpret (toLowerCase (trim text)) = interpret text
  /\ interpret (trim (toLowerCase text)) = interpret text.
Proof.
  assert (H : normalize (trim (toLowerCase text)) = normalize text)
    by apply normalize_idem.
  split; unfold interpret; [rewrite toLowerCase_trim|]; now rewrite H.
Qed.

(** ** The dispatch of the extended screen *)

Lemma requests_app (a b : list Event) :
  requests (a ++ b) = (requests a ++ requests b)%list.
Proof. apply flat_map_app. Qed.

Lemma alerts_app (a b : list Event) :
  alerts (a ++ b) = (alerts a ++ alerts b)%list.
Proof. apply flat_map_app. Qed.

Lemma truthy_action_iff (c : Command) :
  truthy (action c) = false <-> action c = NoAction.
Proof. destruct (action c); split; (reflexivity || discriminate). Qed.

(** X2: [processVoiceCommand] shows the "Command Not Recognized" help,
    and nothing else, exactly when the lower-cased text has no power
    pattern, no color synonym and no brightness word. *)
Theorem processVoiceCommand_unrecognized_iff
    (encode : string -> string) (OS webhookUrl : string) (net : FetchResult)
    (bullet text : string) :
  processVoiceCommand encode OS webhookUrl net bullet text
    = [Alert "Command Not Recognized" (helpMessage bullet)]
  <-> powerPattern (toLowerCase text) = false
      /\ mentionsColor (toLowerCase text) = false
      /\ includesAny rxBrightness (toLowerCase text) = false.
Proof.
  rewrite <- interpret_none_iff, <- truthy_action_iff.
  unfold processVoiceCommand. cbv zeta.
  destruct (truthy (action (interpret text))); split;
    try reflexivity; try discriminate.
  intro H. exfalso.
  change [Alert "Command Not Recognized" (helpMessage bullet)] with
    ([] ++ [Alert "Command Not Recognized" (helpMessage bullet)])%list in H.
  apply app_inj_tail in H. destruct H as [_ H]. discriminate H.
Qed.

(** The alerts of [sendCommand] of the extended screen, by outcome. *)
Lemma sendCommand_alerts (encode : string -> string)
    (OS webhookUrl : string) (net : FetchResult) (action : string)
    (value : option string) :
  truthy (trim webhookUrl) = true ->
  (Is2xx net ->
     alerts (sendCommand encode OS webhookUrl net action value) = [])
  /\ (~ Is2xx net ->
     alerts (sendCommand encode OS webhookUrl net action value)
     = [("Error", "Failed to send command. Please check your webhook URL.")]
     /\ lastCommands (sendCommand encode OS webhookUrl net action value) = []).
Proof.
  intro Hurl. unfold sendCommand. rewrite Hurl. cbn [negb].
  destruct net as [cause|status body].
  - split; [intro H; now apply not_Is2xx_Rejected in H|now split].
  - rewrite Is2xx_Response.
    cbn [fetch Eff.bind Eff.tryCatchFinally fst snd].
    destruct (ok status); cbn [negb].
    + split; [reflexivity|intro H; now elim H].
    + split; [discriminate|]. intros _. now destruct body.
Qed.

(** X3: once an action is recognized, [processVoiceCommand] shows its
    "Success" alert whatever became of the request: after a rejected
    request or a response outside 200..299 the user sees the error alert
    of [sendCommand] and then the success alert, and no command is
    recorded. *)
Theorem processVoiceCommand_success_after_failure
    (encode : string -> string) (OS webhookUrl : string) (net : FetchResult)
    (bullet text : string) :
  truthy (action (interpret text)) = true ->
  truthy (trim webhookUrl) = true ->
  ~ Is2xx net ->
  alerts (processVoiceCommand encode OS webhookUrl net bullet text)
  = [("Error", "Failed to send command. Please check your webhook URL.");
     ("Success", feedbackMessage (interpret text))]
  /\ lastCommands (processVoiceCommand encode OS webhookUrl net bullet text)
     = [].
Proof.
  intros Hact Hurl Hnet. unfold processVoiceCommand. cbv zeta. rewrite Hact.
  destruct (sendCommand_alerts encode OS webhookUrl net
              (action (interpret text)) (Some (color (interpret text))) Hurl)
    as [_ Hfail].
  destruct (Hfail Hnet) as [Ha Hl].
  rewrite alerts_app, Ha. split; [reflexivity|].
  unfold lastCommands in *. rewrite flat_map_app, Hl. reflexivity.
Qed.

Lemma processVoiceCommand_success_after_failure_witness :
  alerts (processVoiceCommand FormUrlEncoded.encode "ios"
            "https://n8n.local/hook" (Response 500 (inr "boom")) "*"
            "Turn on the lamp")
  = [("Error", "Failed to send command. Please check your webhook URL.");
     ("Success", "Command executed: turn on")].
Proof.
  apply (processVoiceCommand_success_after_failure FormUrlEncoded.encode
           "ios" "https://n8n.local/hook" (Response 500 (inr "boom")) "*"
           "Turn on the lamp" eq_refl eq_refl).
  intros (st & b & Heq & Hlo & Hhi). injection Heq as <- <-. lia.
Defined.

(** X4: with a blank webhook URL a recognized command issues no request
    and reports no error, yet the "Success" alert is shown; off the web
    it follows the alert that asks for the URL. *)
Theorem processVoiceCommand_blank_url
    (encode : string -> string) (OS webhookUrl : string) (net : FetchResult)
    (bullet text : string) :
  truthy (action (interpret text)) = true ->
  truthy (trim webhookUrl) = false ->
  requests (processVoiceCommand encode OS webhookUrl net bullet text) = []
  /\ reported (processVoiceCommand encode OS webhookUrl net bullet text) = []
  /\ alerts (processVoiceCommand encode OS webhookUrl net bullet text)
     = ((if notWeb OS
         then [("Error", "Please set your n8n webhook URL first")]
         else [])
        ++ [("Success", feedbackMessage (interpret text))])%list.
Proof.
  intros Hact Hurl. unfold processVoiceCommand, sendCommand. cbv zeta.
  rewrite Hact, Hurl. cbn [negb]. unfold missingUrlGuard.
  now destruct (notWeb OS).
Qed.

Lemma processVoiceCommand_blank_url_witness :
  requests (processVoiceCommand FormUrlEncoded.encode "web" "   "
              (Response 200 (inr "")) "*" "make it blue") = []
  /\ alerts (processVoiceCommand FormUrlEncoded.encode "web" "   "
               (Response 200 (inr "")) "*" "make it blue")
     = [("Success", "Command executed: set color (blue)")].
Proof.
  destruct (processVoiceCommand_blank_url FormUrlEncoded.encode "web" "   "
              (Response 200 (inr "")) "*" "make it blue" eq_refl eq_refl)
    as (Hreq & _ & Hal).
  split; [exact Hreq|exact Hal].
Defined.

(** The payload of an interpreted command is in the vocabulary. *)
Lemma payload_interpret_vocabulary (text : string) :
  truthy (action (interpret text)) = true ->
  In (payload (action (interpret text)) (Some (color (interpret text))))
     vocabulary.
Proof.
  rewrite interpret_lower. cbv zeta.
  destruct (_ && _).
  { intros _.
    destruct (includesAny rxFull _); [|destruct (includesAny rxHalf _)];
      cbn; tauto. }
  destruct (firstColor (toLowerCase text)) as [c|] eqn:Hc.
  { intros _. apply firstColor_name in Hc. cbn [In] in Hc.
    repeat (destruct Hc as [<-|Hc]; [cbn; tauto|]). contradiction. }
  destruct (powerPattern _); [|discriminate].
  intros _. destruct (includes "off" _); cbn; tauto.
Qed.

(** X5: [processVoiceCommand] issues at most one request, and its query
    is one of fourteen payloads: turn_on, turn_off, set_color with one of
    the nine canonical colors, or set_brightness with 100, 50 or 20. *)
Theorem processVoiceCommand_vocabulary
    (encode : string -> string) (OS webhookUrl : string) (net : FetchResult)
    (bullet text : string) :
  requests (processVoiceCommand encode OS webhookUrl net bullet text) = []
  \/ exists query,
       In query vocabulary
       /\ requests (processVoiceCommand encode OS webhookUrl net bullet text)
          = [("GET", trim webhookUrl ++ "?" ++ queryString encode query)].
Proof.
  unfold processVoiceCommand. cbv zeta.
  destruct (truthy (action (interpret text))) eqn:Hact; [|now left].
  rewrite requests_app. cbn [requests flat_map app].
  rewrite app_nil_r.
  destruct (truthy (trim webhookUrl)) eqn:Hurl.
  - right. eexists. split; [exact (payload_interpret_vocabulary text Hact)|].
    now apply sendCommand_requests.
  - left. now apply (sendCommand_blank_url encode OS webhookUrl).
Qed.

(** ** The simple screen *)

(** The requests of one [sendCommand] of the simple screen. *)
Lemma sendCommandSimple_requests_cases (encode : string -> string)
    (OS webhookUrl : string) (net : FetchResult) (action : string)
    (color : option string) :
  requests (sendCommandSimple encode OS webhookUrl net action color)
  = if truthy (trim webhookUrl)
    then [("GET", trim webhookUrl ++ "?"
                  ++ queryString encode (payloadSimple action color))]
    else [].
Proof.
  destruct (truthy (trim webhookUrl)) eqn:Hurl.
  - now apply sendCommandSimple_requests.
  - now apply (sendCommand_blank_url encode OS webhookUrl action color net).
Qed.

(** X6: [parseVoiceCommand] issues at most one request, and its query is
    one of seven payloads: on, off, or color with red, blue, green,
    yellow or white. *)
Theorem parseVoiceCommand_vocabulary
    (encode : string -> string) (OS webhookUrl : string) (net : FetchResult)
    (command : string) :
  requests (parseVoiceCommand encode OS webhookUrl net command) = []
  \/ exists query,
       In query vocabularySimple
       /\ requests (parseVoiceCommand encode OS webhookUrl net command)
          = [("GET", trim webhookUrl ++ "?" ++ queryString encode query)].
Proof.
  unfold parseVoiceCommand. cbv zeta.
  repeat (match goal with
          | |- context [if ?b then sendCommandSimple _ _ _ _ _ _ else _] =>
              destruct b
          end;
          [rewrite sendCommandSimple_requests_cases;
           destruct (truthy (trim webhookUrl)); [right|now left];
           eexists; split; [|reflexivity]; cbn; tauto|]).
  left. now destruct (notWeb OS).
Qed.

(** The words of the simple parser are words of the extended one. *)
Lemma simple_words_extended (lower : string) :
  (includes "turn on" lower || includes "switch on" lower
   || String.eqb lower "on" = true -> includes "on" lower = true)
  /\ (includes "turn off" lower || includes "switch off" lower
      || String.eqb lower "off" = true -> includes "off" lower = true).
Proof.
  split; intro H;
    repeat (apply orb_prop in H; destruct H as [H|H]);
    try (apply String.eqb_eq in H; now subst lower);
    (eapply includes_trans; [|exact H]); reflexivity.
Qed.

Lemma includes_mentionsColor (w command : string) :
  In w allVariations -> includes w command = true ->
  mentionsColor command = true.
Proof.
  intros Hin Hw. unfold mentionsColor, some. apply existsb_exists.
  now exists w.
Qed.

(** X7: the extended interpreter understands whatever the simple parser
    does: when [parseVoiceCommand] sends a command for a text, the
    interpreter does not answer NoAction on it. *)
Theorem simple_recognized_extended_recognized
    (encode : string -> string) (OS webhookUrl : string) (net : FetchResult)
    (command : string) :
  requests (parseVoiceCommand encode OS webhookUrl net command) <> [] ->
  action (interpret command) <> NoAction.
Proof.
  unfold parseVoiceCommand. cbv zeta. intros Hreq Hnone.
  apply interpret_none_iff in Hnone. destruct Hnone as (Hp & Hc & _).
  destruct (simple_words_extended (toLowerCase command)) as [Hon Hoff].
  assert (Hpow : forall w, In w rxOnOff ->
            includes w (toLowerCase command) = true -> False).
  { intros w Hin Hw. unfold powerPattern in Hp.
    apply orb_false_elim in Hp. destruct Hp as [_ Hp].
    unfold includesAny, some in Hp.
    assert (existsb (fun w => includes w (toLowerCase command)) rxOnOff
            = true) by (apply existsb_exists; now exists w).
    congruence. }
  assert (Hcol : forall w, In w allVariations ->
            includes w (toLowerCase command) = true -> False).
  { intros w Hin Hw.
    rewrite (includes_mentionsColor w _ Hin Hw) in Hc. discriminate Hc. }
  destruct (_ || _ || _) eqn:H1 in Hreq.
  { apply (Hpow "on"); [cbn; tauto|now apply Hon]. }
  destruct (_ || _ || _) eqn:H2 in Hreq.
  { apply (Hpow "off"); [cbn; tauto|now apply Hoff]. }
  assert (Hbranch : forall c phrase,
            In c allVariations -> includes c phrase = true ->
            includes c (toLowerCase command)
            || includes phrase (toLowerCase command) = false).
  { intros c phrase Hin Hsub.
    destruct (includes c (toLowerCase command)) eqn:Hc1;
      [now elim (Hcol c)|].
    destruct (includes phrase (toLowerCase command)) eqn:Hc2;
      [|reflexivity].
    elim (Hcol c Hin). now apply includes_trans with phrase. }
  rewrite !Hbranch in Hreq by (reflexivity || (cbn; tauto)).
  apply Hreq. now destruct (notWeb OS).
Qed.

Lemma simple_recognized_extended_recognized_witness :
  action (interpret "Switch ON please") <> NoAction.
Proof.
  apply (simple_recognized_extended_recognized FormUrlEncoded.encode "ios"
           "https://n8n.local/hook" (Response 200 (inr "")) "Switch ON please").
  discriminate.
Defined.

(** ** Buttons and voice *)

(** X8: on the extended screen, saying "make it" followed by the name of
    a color button does what pressing the button does, followed by the
    feedback: the names of the buttons are names the interpreter returns. *)
Theorem voice_matches_button
    (encode : string -> string) (OS webhookUrl : string) (net : FetchResult)
    (bullet : string) (button : string * string) :
  In button COLORS ->
  processVoiceCommand encode OS webhookUrl net bullet
    ("make it " ++ fst button)
  = (pressColor encode OS webhookUrl net button
     ++ [Alert "Success"
           ("Command executed: set color (" ++ fst button ++ ")")])%list.
Proof.
  intro Hin. unfold COLORS in Hin. cbn [In] in Hin.
  repeat (destruct Hin as [<-|Hin]; [reflexivity|]). contradiction.
Qed.

Lemma voice_matches_button_witness :
  requests (processVoiceCommand FormUrlEncoded.encode "ios"
              "https://n8n.local/hook" (Response 204 (inr "")) "*"
              "make it yellow")
  = requests (pressColor FormUrlEncoded.encode "ios"
                "https://n8n.local/hook" (Response 204 (inr ""))
                ("yellow", "#FFFF44")).
Proof.
  assert (Hin : In ("yellow", "#FFFF44") COLORS)
    by (right; right; right; left; reflexivity).
  pose proof (voice_matches_button FormUrlEncoded.encode "ios"
                "https://n8n.local/hook" (Response 204 (inr "")) "*"
                ("yellow", "#FFFF44") Hin) as H.
  change ("make it " ++ fst ("yellow", "#FFFF44")) with "make it yellow" in H.
  rewrite H. reflexivity.
Defined.

(** ** The loading flag and the alerts of the transport *)

(** X9: with a webhook URL set, each [sendCommand] raises [isLoading]
    first and lowers it last, once each, whatever the network answers:
    the flag is never left raised. *)
Theorem sendCommand_loading_bracket
    (encode : string -> string) (OS webhookUrl : string) (net : FetchResult)
    (action : string) (value : option string) :
  truthy (trim webhookUrl) = true ->
  (hd_error (sendCommand encode OS webhookUrl net action value)
     = Some (SetIsLoading true)
   /\ last (sendCommand encode OS webhookUrl net action value)
          (SetIsLoading true) = SetIsLoading false
   /\ loadings (sendCommand encode OS webhookUrl net action value)
      = [true; false])
  /\ (hd_error (sendCommandSimple encode OS webhookUrl net action value)
      = Some (SetIsLoading true)
      /\ last (sendCommandSimple encode OS webhookUrl net action value)
             (SetIsLoading true) = SetIsLoading false
      /\ loadings (sendCommandSimple encode OS webhookUrl net action value)
         = [true; false]).
Proof.
  intro Hurl. unfold sendCommand, sendCommandSimple. rewrite Hurl.
  cbn [negb].
  destruct net as [cause|status body];
    cbn [fetch Eff.bind Eff.tryCatchFinally fst snd].
  - destruct (notWeb OS); repeat split; reflexivity.
  - destruct (ok status); cbn [negb]; [|destruct body];
      destruct (notWeb OS); repeat split; reflexivity.
Qed.

Lemma sendCommand_loading_bracket_witness :
  loadings (sendCommand FormUrlEncoded.encode "ios" "https://n8n.local/hook"
              (Rejected (ErrorObject "Network request failed"))
              TurnOff None)
  = [true; false].
Proof.
  exact (proj2 (proj2 (proj1 (sendCommand_loading_bracket
           FormUrlEncoded.encode "ios" "https://n8n.local/hook"
           (Rejected (ErrorObject "Network request failed"))
           TurnOff None eq_refl)))).
Defined.

Lemma sendCommandSimple_web_silent (encode : string -> string)
    (webhookUrl : string) (net : FetchResult) (action : string)
    (color : option string) :
  alerts (sendCommandSimple encode "web" webhookUrl net action color) = [].
Proof.
  unfold sendCommandSimple.
  destruct (truthy (trim webhookUrl)); [|reflexivity]. cbn [negb].
  destruct net as [cause|status body]; [reflexivity|].
  cbn [fetch Eff.bind Eff.tryCatchFinally fst snd].
  destruct (ok status); reflexivity.
Qed.

(** X10: on the web the simple screen never shows an alert: whatever the
    URL, the command and the answer of the network, a failed request, a
    missing URL and an unrecognized voice command are all silent for the
    user. *)
Theorem simple_screen_silent_on_web
    (encode : string -> string) (webhookUrl : string) (net : FetchResult) :
  (forall action color,
     alerts (sendCommandSimple encode "web" webhookUrl net action color) = [])
  /\ (forall command,
        alerts (parseVoiceCommand encode "web" webhookUrl net command) = [])
  /\ (forall value,
        alerts (handleVoiceResults encode "web" webhookUrl net value) = []).
Proof.
  assert (Hparse : forall command,
            alerts (parseVoiceCommand encode "web" webhookUrl net command)
            = []).
  { intro command. unfold parseVoiceCommand. cbv zeta.
    repeat (match goal with
            | |- context [if ?b then sendCommandSimple _ _ _ _ _ _ else _] =>
                destruct b; [apply sendCommandSimple_web_silent|]
            end).
    reflexivity. }
  split; [intros; apply sendCommandSimple_web_silent|].
  split; [exact Hparse|].
  intros [[|first rest]|]; try reflexivity.
  cbn [handleVoiceResults]. apply Hparse.
Qed.

(** X11: off the web, the alert of the simple screen for a response
    outside 200..299 shows the status code and the body (or "Unknown
    error" when the body cannot be read), while the alert of the extended
    screen is one fixed text without the status code. *)
Theorem failure_alert_texts
    (encode : string -> string) (OS webhookUrl : string) (status : nat)
    (body : Thrown + string) (action : string) (value : option string) :
  truthy (trim webhookUrl) = true ->
  notWeb OS = true ->
  ok status = false ->
  alerts (sendCommandSimple encode OS webhookUrl (Response status body)
            action value)
  = [("Error",
      "Failed to send command: HTTP " ++ showStatus status ++ ": "
      ++ match body with inr text => text | inl _ => "Unknown error" end)]
  /\ alerts (sendCommand encode OS webhookUrl (Response status body)
               action value)
     = [("Error", "Failed to send command. Please check your webhook URL.")].
Proof.
  intros Hurl Hweb Hok. unfold sendCommand, sendCommandSimple.
  rewrite Hurl. cbn [negb fetch Eff.bind Eff.tryCatchFinally fst snd].
  rewrite Hok, Hweb. cbn [negb]. now destruct body.
Qed.

Lemma failure_alert_texts_witness :
  alerts (sendCommandSimple FormUrlEncoded.encode "android"
            "https://n8n.local/hook" (Response 404 (inr "not found"))
            "on" None)
  = [("Error", "Failed to send command: HTTP 404: not found")].
Proof.
  exact (proj1 (failure_alert_texts FormUrlEncoded.encode "android"
                  "https://n8n.local/hook" 404 (inr "not found") "on" None
                  eq_refl eq_refl eq_refl)).
Defined.

(** * Recording, transcription and settings *)

(** ** [stopRecording] *)

Section StopRecording.

Variable encode : string -> string.
Variables webhookUrl openAIKey : string.

Local Abbreviation failed err :=
  [Ui (ConsoleError "Error:" err);
   Ui (Alert "Error" "Failed to process voice command")].

Local Abbreviation upload uri :=
  (Upload whisperUrl [("Authorization", "Bearer " ++ openAIKey)]
     [("file", FormFile (orEmpty uri) "audio/m4a" "recording.m4a");
      ("model", FormText "whisper-1")]).

(** The run of [stopRecording] once the transcript is there. *)
Lemma stopRecording_transcribed (uri : option string) (status : nat)
    (text : string) (hook : FetchResult) :
  truthyOpt uri = true -> ok status = true ->
  stopRecording encode webhookUrl openAIKey true (inr tt) uri
    (Response status (inr text)) hook
  = ([AudioCall "stopAndUnloadAsync"; SetRecording false;
      SetIsListening false; upload uri;
      Ui (Fetch "GET" []
            (trim webhookUrl ++ "?"
             ++ queryString encode [("command", trim text)]))]
     ++ match hook with
        | Rejected cause => failed cause
        | Response status' _ =>
            if ok status'
            then [Ui (SetLastCommand (trim text));
                  Ui (Alert "Command Sent" (dq ++ trim text ++ dq))]
            else failed (ErrorObject
                           ("Webhook error: " ++ showStatus status'))
        end)%list.
Proof.
  intros Huri Hok. unfold stopRecording.
  cbn [negb Act.tryCatch Act.bind Act.call Act.emit Act.ret Act.throw
       Act.await answer fst snd app].
  rewrite Huri. cbn [negb Act.bind Act.ret fst snd app]. rewrite Hok.
  cbn [negb Act.bind Act.ret Act.await fst snd app].
  destruct hook as [cause|status' body']; [reflexivity|].
  cbn [answer Act.call Act.bind fst snd app].
  destruct (ok status'); reflexivity.
Qed.

(** The run of [stopRecording] when no transcript comes: it ends in the
    failure report, and before it nothing is shown or requested. *)
Lemma stopRecording_cases (stop : Thrown + unit)
    (uri : option string) (whisper hook : FetchResult) :
  (stop = inr tt /\ truthyOpt uri = true
   /\ exists text, Transcribed whisper text)
  \/ (exists steps err,
        stopRecording encode webhookUrl openAIKey true stop uri whisper hook
        = (steps ++ failed err)%list
        /\ uiEvents steps = []
        /\ listenings steps
           = match stop with inl _ => [] | inr _ => [false] end
        /\ recordings steps
           = match stop with inl _ => [] | inr _ => [false] end).
Proof.
  unfold stopRecording.
  destruct stop as [e|[]].
  { right. exists [AudioCall "stopAndUnloadAsync"], e. now repeat split. }
  destruct (truthyOpt uri) eqn:Huri.
  2:{ right.
      exists [AudioCall "stopAndUnloadAsync"; SetRecording false;
              SetIsListening false],
             (ErrorObject "No recording URI available").
      now repeat split. }
  destruct whisper as [cause|status body].
  { right.
    exists [AudioCall "stopAndUnloadAsync"; SetRecording false;
            SetIsListening false; upload uri], cause.
    now repeat split. }
  destruct (ok status) eqn:Hok.
  - destruct body as [cause|text].
    + right.
      exists [AudioCall "stopAndUnloadAsync"; SetRecording false;
              SetIsListening false; upload uri], cause.
      cbn [negb Act.tryCatch Act.bind Act.call Act.emit Act.ret Act.throw
           Act.await answer fst snd app].
      rewrite Hok. now repeat split.
    + left. repeat split. exists text, status. now split.
  - right.
    exists [AudioCall "stopAndUnloadAsync"; SetRecording false;
            SetIsListening false; upload uri],
           (ErrorObject ("OpenAI API error: " ++ showStatus status)).
    cbn [negb Act.tryCatch Act.bind Act.call Act.emit Act.ret Act.throw
         Act.await answer fst snd app].
    rewrite Hok. now repeat split.
Qed.

End StopRecording.

Lemma uiEvents_app (a b : list Step) :
  uiEvents (a ++ b) = (uiEvents a ++ uiEvents b)%list.
Proof. apply flat_map_app. Qed.

Lemma listenings_app (a b : list Step) :
  listenings (a ++ b) = (listenings a ++ listenings b)%list.
Proof. apply flat_map_app. Qed.

Lemma recordings_app (a b : list Step) :
  recordings (a ++ b) = (recordings a ++ recordings b)%list.
Proof. apply flat_map_app. Qed.

(** X12: once the recording is stopped and transcribed, [stopRecording]
    sends the transcript itself, trimmed, to the webhook under the key
    [command]: one GET request, without interpreting the text, whatever
    the webhook answers afterwards. *)
Theorem stopRecording_forwards_transcript
    (encode : string -> string) (webhookUrl openAIKey : string)
    (uri : option string) (text : string) (whisper hook : FetchResult) :
  truthyOpt uri = true ->
  Transcribed whisper text ->
  requests (uiEvents (stopRecording encode webhookUrl openAIKey true
                        (inr tt) uri whisper hook))
  = [("GET", trim webhookUrl ++ "?"
             ++ queryString encode [("command", trim text)])]
  /\ uploads (stopRecording encode webhookUrl openAIKey true
                (inr tt) uri whisper hook) = [whisperUrl].
Proof.
  intros Huri (status & -> & Hok).
  rewrite (stopRecording_transcribed encode webhookUrl openAIKey uri status
             text hook Huri Hok).
  destruct hook as [cause|status' body']; [now split|].
  destruct (ok status'); now split.
Qed.

Lemma stopRecording_forwards_transcript_witness :
  requests (uiEvents (stopRecording FormUrlEncoded.encode
                        "https://n8n.local/hook" "sk-test" true (inr tt)
                        (Some "file:///rec.m4a")
                        (Response 200 (inr " Banana bread. "))
                        (Response 200 (inr ""))))
  = [("GET", "https://n8n.local/hook?command=Banana+bread.")].
Proof.
  apply (stopRecording_forwards_transcript FormUrlEncoded.encode
           "https://n8n.local/hook" "sk-test" (Some "file:///rec.m4a")
           " Banana bread. " (Response 200 (inr " Banana bread. "))
           (Response 200 (inr "")) eq_refl).
  now exists 200.
Defined.

(** X13: [stopRecording] calls the webhook only with a transcript: a
    request is issued only if a recording was there, stopping it
    succeeded, it had a URI and the transcription succeeded. *)
Theorem stopRecording_request_needs_transcript
    (encode : string -> string) (webhookUrl openAIKey : string)
    (recording : bool) (stop : Thrown + unit) (uri : option string)
    (whisper hook : FetchResult) :
  requests (uiEvents (stopRecording encode webhookUrl openAIKey recording
                        stop uri whisper hook)) <> [] ->
  recording = true /\ stop = inr tt /\ truthyOpt uri = true
  /\ exists text, Transcribed whisper text.
Proof.
  intro Hreq. destruct recording; [|now elim Hreq].
  split; [reflexivity|].
  destruct (stopRecording_cases encode webhookUrl openAIKey stop uri
              whisper hook) as [H|(steps & err & Heq & Hui & _)];
    [exact H|].
  elim Hreq. rewrite Heq, uiEvents_app, Hui. reflexivity.
Qed.

Lemma stopRecording_request_needs_transcript_witness :
  exists text, Transcribed (Response 201 (inr "lights off")) text.
Proof.
  apply (stopRecording_request_needs_transcript FormUrlEncoded.encode
           "https://n8n.local/hook" "sk-test" true (inr tt)
           (Some "file:///rec.m4a") (Response 201 (inr "lights off"))
           (Rejected OtherThrown)).
  discriminate.
Defined.

(** X14: a call of [stopRecording] on a recording shows exactly one
    alert: "Command Sent" with the quoted transcript, which is then also
    recorded as the last command, when stopping, transcribing and the
    webhook (status in 200..299) all succeeded, and otherwise the fixed
    "Failed to process voice command", with nothing recorded. *)
Theorem stopRecording_one_alert
    (encode : string -> string) (webhookUrl openAIKey : string)
    (stop : Thrown + unit) (uri : option string)
    (whisper hook : FetchResult) :
  (exists text,
     stop = inr tt /\ truthyOpt uri = true /\ Transcribed whisper text
     /\ Is2xx hook
     /\ alerts (uiEvents (stopRecording encode webhookUrl openAIKey true
                            stop uri whisper hook))
        = [("Command Sent", dq ++ trim text ++ dq)]
     /\ lastCommands (uiEvents (stopRecording encode webhookUrl openAIKey
                                  true stop uri whisper hook))
        = [trim text])
  \/ ((~ Is2xx hook \/ stop <> inr tt \/ truthyOpt uri = false
       \/ forall text, ~ Transcribed whisper text)
      /\ alerts (uiEvents (stopRecording encode webhookUrl openAIKey true
                             stop uri whisper hook))
         = [("Error", "Failed to process voice command")]
      /\ lastCommands (uiEvents (stopRecording encode webhookUrl openAIKey
                                   true stop uri whisper hook))
         = []).
Proof.
  destruct (stopRecording_cases encode webhookUrl openAIKey stop uri
              whisper hook)
    as [(-> & Huri & text & status & -> & Hok)
       |(steps & err & Heq & Hui & Hl & _)].
  - rewrite (stopRecording_transcribed encode webhookUrl openAIKey uri
               status text hook Huri Hok).
    destruct hook as [cause|status' body'].
    + right. split; [left; apply not_Is2xx_Rejected|now split].
    + destruct (ok status') eqn:Hok'.
      * left. exists text. repeat split; try assumption.
        -- now exists status.
        -- now apply Is2xx_Response.
      * right. split; [|now split].
        left. rewrite Is2xx_Response, Hok'. discriminate.
  - right. rewrite Heq, uiEvents_app, Hui. split; [|now split].
    right. destruct stop as [e|[]]; [left; discriminate|right].
    destruct (truthyOpt uri) eqn:Huri; [right|now left].
    intros text (status & -> & Hok).
    rewrite (stopRecording_transcribed encode webhookUrl openAIKey uri
               status text hook Huri Hok) in Heq.
    cbn [app] in Heq.
    assert (Hlen : listenings steps = [false]) by exact Hl.
    apply (f_equal uiEvents) in Heq. rewrite uiEvents_app, Hui in Heq.
    cbn in Heq. now destruct hook as [|st' b']; [|destruct (ok st')].
Qed.

(** X15: [stopRecording] clears the recorder states only after
    [stopAndUnloadAsync] succeeded: then [recording] and [isListening]
    are each reset once, even if a later step fails; if the call
    rejects, neither is touched and the screen stays in listening mode,
    with the failure alert. *)
Theorem stopRecording_state_reset
    (encode : string -> string) (webhookUrl openAIKey : string)
    (stop : Thrown + unit) (uri : option string)
    (whisper hook : FetchResult) :
  match stop with
  | inr _ =>
      listenings (stopRecording encode webhookUrl openAIKey true stop uri
                    whisper hook) = [false]
      /\ recordings (stopRecording encode webhookUrl openAIKey true stop uri
                       whisper hook) = [false]
  | inl e =>
      stopRecording encode webhookUrl openAIKey true stop uri whisper hook
      = [AudioCall "stopAndUnloadAsync"; Ui (ConsoleError "Error:" e);
         Ui (Alert "Error" "Failed to process voice command")]
  end.
Proof.
  destruct stop as [e|[]]; [reflexivity|].
  destruct (stopRecording_cases encode webhookUrl openAIKey (inr tt) uri
              whisper hook)
    as [(_ & Huri & text & status & -> & Hok)
       |(steps & err & Heq & _ & Hl & Hr)].
  - rewrite (stopRecording_transcribed encode webhookUrl openAIKey uri
               status text hook Huri Hok).
    destruct hook as [cause|status' body']; [now split|].
    destruct (ok status'); now split.
  - rewrite Heq, listenings_app, recordings_app, Hl, Hr. now split.
Qed.

(** ** [startRecording] and [startVoiceRecognition] *)

(** X16: [startRecording] enters listening mode exactly when its three
    audio calls all succeed; when one rejects, the later calls are not
    made, the states are not set and one "Failed to start recording"
    alert is shown. *)
Theorem startRecording_listening_iff (permission mode create : Thrown + unit) :
  (listenings (startRecording permission mode create) = [true]
   <-> permission = inr tt /\ mode = inr tt /\ create = inr tt)
  /\ (listenings (startRecording permission mode create) = []
      -> recordings (startRecording permission mode create) = []
         /\ alerts (uiEvents (startRecording permission mode create))
            = [("Error", "Failed to start recording")]).
Proof.
  destruct permission as [e|[]]; [|destruct mode as [e|[]];
    [|destruct create as [e|[]]]];
    (split; [split; [try discriminate; now intros _
                    |try reflexivity; intros (H1 & H2 & H3); discriminate]
            |try discriminate; now intros _]).
Qed.

(** X17: the guard of [startVoiceRecognition] tests the webhook URL
    without trimming it: with a key and a URL of white space only, a
    stop on a transcribed recording still calls the webhook, on the
    relative address that starts at the question mark. *)
Theorem startVoiceRecognition_blank_url
    (encode : string -> string) (webhookUrl openAIKey : string)
    (permission mode create : Thrown + unit) (uri : option string)
    (text : string) (whisper hook : FetchResult) :
  truthy openAIKey = true ->
  truthy webhookUrl = true ->
  truthy (trim webhookUrl) = false ->
  truthyOpt uri = true ->
  Transcribed whisper text ->
  requests (uiEvents (startVoiceRecognition encode webhookUrl openAIKey
                        true true permission mode create (inr tt) uri
                        whisper hook))
  = [("GET", "?" ++ queryString encode [("command", trim text)])].
Proof.
  intros Hkey Hurl Hblank Huri Ht. unfold startVoiceRecognition.
  rewrite Hkey, Hurl. cbn [negb orb].
  destruct Ht as (status & -> & Hok).
  rewrite (stopRecording_transcribed encode webhookUrl openAIKey uri status
             text hook Huri Hok).
  destruct (trim webhookUrl); [|discriminate Hblank].
  destruct hook as [cause|status' body']; [reflexivity|].
  now destruct (ok status').
Qed.

Lemma startVoiceRecognition_blank_url_witness :
  requests (uiEvents (startVoiceRecognition FormUrlEncoded.encode
                        "  " "sk-test" true true (inr tt) (inr tt) (inr tt)
                        (inr tt) (Some "file:///rec.m4a")
                        (Response 200 (inr "turn on")) (Rejected OtherThrown)))
  = [("GET", "?command=turn+on")].
Proof.
  apply (startVoiceRecognition_blank_url FormUrlEncoded.encode "  "
           "sk-test" (inr tt) (inr tt) (inr tt) (Some "file:///rec.m4a")
           "turn on" (Response 200 (inr "turn on")) (Rejected OtherThrown)
           eq_refl eq_refl eq_refl eq_refl).
  now exists 200.
Defined.

(** ** Transcription before the interpreter *)

Lemma uiEvents_map_Ui (events : list Event) :
  uiEvents (map Ui events) = events.
Proof.
  induction events as [|e l IH]; [reflexivity|].
  change (uiEvents (map Ui (e :: l))) with (e :: uiEvents (map Ui l)).
  now rewrite IH.
Qed.

Lemma interpret_lower_trim (text : string) :
  interpret (toLowerCase (trim text)) = interpret text.
Proof.
  unfold interpret.
  assert (H : normalize (toLowerCase (trim text)) = normalize text).
  { rewrite toLowerCase_trim. apply normalize_idem. }
  now rewrite H.
Qed.

Section Transcription.

Variable encode : string -> string.
Variables OS webhookUrl openAIKey bullet : string.
Hypothesis key_set : truthy openAIKey = true.

Local Abbreviation upload audioUri :=
  (Upload whisperUrl [("Authorization", "Bearer " ++ openAIKey)]
     [("file", FormFile audioUri "audio/m4a" "audio.m4a");
      ("model", FormText "whisper-1")]).

Lemma convertVoiceToText_transcribed (audioUri data text : string)
    (status : nat) :
  ok status = true ->
  convertVoiceToText openAIKey audioUri (inr data)
    (Response status (inr text))
  = ([ReadFile audioUri; upload audioUri], Some (toLowerCase (trim text))).
Proof.
  intro Hok. unfold convertVoiceToText. rewrite key_set.
  cbn [negb Act.tryCatch Act.bind Act.call Act.emit Act.ret Act.throw
       Act.await answer fst snd app].
  now rewrite Hok.
Qed.

(** Without a transcript [convertVoiceToText] returns null and its steps
    hold one alert and no event of the transport besides the report. *)
Lemma convertVoiceToText_failed (audioUri : string) (read : Thrown + string)
    (whisper : FetchResult) :
  (exists data text, read = inr data /\ Transcribed whisper text)
  \/ (snd (convertVoiceToText openAIKey audioUri read whisper) = None
      /\ requests (uiEvents
                     (fst (convertVoiceToText openAIKey audioUri read whisper)))
         = []
      /\ (uploads (fst (convertVoiceToText openAIKey audioUri read whisper))
          <> [] -> exists data, read = inr data)).
Proof.
  unfold convertVoiceToText. rewrite key_set. cbn [negb].
  destruct read as [e|data].
  { right. repeat split. intro H. now elim H. }
  destruct whisper as [cause|status body].
  { right. repeat split. intros _. now exists data. }
  cbn [negb Act.tryCatch Act.bind Act.call Act.emit Act.ret Act.throw
       Act.await answer fst snd app].
  destruct (ok status) eqn:Hok; cbn [negb].
  - destruct body as [cause|text].
    + right. repeat split. intros _. now exists data.
    + left. exists data, text. split; [reflexivity|]. now exists status.
  - right. destruct body; (repeat split; intros _; now exists data).
Qed.

End Transcription.

(** X18: when the transcription succeeds with a text that is not blank,
    [handleVoiceResults] of the extended screen records the trimmed,
    lower-cased transcript as the last command and then does exactly what
    [processVoiceCommand] does on the transcript as it came: the
    normalization of [convertVoiceToText] does not change the command. *)
Theorem handleVoiceResults_interprets_transcript
    (encode : string -> string) (OS webhookUrl openAIKey bullet : string)
    (audioUri : string) (others : list string) (data text : string)
    (whisper net : FetchResult) :
  truthy openAIKey = true ->
  Transcribed whisper text ->
  truthy (toLowerCase (trim text)) = true ->
  uiEvents (handleVoiceResultsExtended encode OS webhookUrl openAIKey bullet
              (Some (audioUri :: others)) (inr data) whisper net)
  = SetLastCommand (toLowerCase (trim text))
    :: processVoiceCommand encode OS webhookUrl net bullet text.
Proof.
  intros Hkey (status & -> & Hok) Htext. unfold handleVoiceResultsExtended.
  rewrite (convertVoiceToText_transcribed openAIKey Hkey audioUri data text
             status Hok).
  rewrite Htext, uiEvents_app. cbn [uiEvents flat_map app].
  fold (uiEvents (map Ui (processVoiceCommand encode OS webhookUrl net bullet
                            (toLowerCase (trim text))))).
  rewrite uiEvents_map_Ui. unfold processVoiceCommand.
  now rewrite interpret_lower_trim.
Qed.

Lemma handleVoiceResults_interprets_transcript_witness :
  requests (uiEvents (handleVoiceResultsExtended FormUrlEncoded.encode "ios"
              "https://n8n.local/hook" "sk-test" "*"
              (Some ["file:///a.m4a"]) (inr "AAAA")
              (Response 200 (inr " Make it Crimson. "))
              (Response 200 (inr ""))))
  = [("GET", "https://n8n.local/hook?action=set_color&color=red")].
Proof.
  rewrite (handleVoiceResults_interprets_transcript FormUrlEncoded.encode
             "ios" "https://n8n.local/hook" "sk-test" "*" "file:///a.m4a" []
             "AAAA" " Make it Crimson. "
             (Response 200 (inr " Make it Crimson. "))
             (Response 200 (inr "")) eq_refl
             (ex_intro _ 200 (conj eq_refl eq_refl)) eq_refl).
  reflexivity.
Defined.

(** X19: a transcript that is blank after trimming is dropped in
    silence: [handleVoiceResults] of the extended screen shows no alert,
    records no command and sends nothing, not even the help of the
    unrecognized command. *)
Theorem handleVoiceResults_blank_transcript
    (encode : string -> string) (OS webhookUrl openAIKey bullet : string)
    (audioUri : string) (others : list string) (data text : string)
    (whisper net : FetchResult) :
  truthy openAIKey = true ->
  Transcribed whisper text ->
  trim text = "" ->
  uiEvents (handleVoiceResultsExtended encode OS webhookUrl openAIKey bullet
              (Some (audioUri :: others)) (inr data) whisper net) = [].
Proof.
  intros Hkey (status & -> & Hok) Htext. unfold handleVoiceResultsExtended.
  rewrite (convertVoiceToText_transcribed openAIKey Hkey audioUri data text
             status Hok).
  now rewrite Htext.
Qed.

Lemma handleVoiceResults_blank_transcript_witness :
  uiEvents (handleVoiceResultsExtended FormUrlEncoded.encode "ios"
              "https://n8n.local/hook" "sk-test" "*"
              (Some ["file:///a.m4a"]) (inr "AAAA")
              (Response 200 (inr "   ")) (Response 200 (inr ""))) = [].
Proof.
  apply (handleVoiceResults_blank_transcript FormUrlEncoded.encode "ios"
           "https://n8n.local/hook" "sk-test" "*" "file:///a.m4a" [] "AAAA"
           "   " (Response 200 (inr "   ")) (Response 200 (inr ""))
           eq_refl (ex_intro _ 200 (conj eq_refl eq_refl)) eq_refl).
Defined.

(** X20: [handleVoiceResults] of the extended screen reaches the webhook
    only through a transcript: a request is issued only if the key is
    set, the audio file could be read and the transcription succeeded;
    and nothing is uploaded when the file cannot be read. *)
Theorem handleVoiceResults_request_needs_transcript
    (encode : string -> string) (OS webhookUrl openAIKey bullet : string)
    (value : option (list string)) (read : Thrown + string)
    (whisper net : FetchResult) :
  (requests (uiEvents (handleVoiceResultsExtended encode OS webhookUrl
                         openAIKey bullet value read whisper net)) <> [] ->
   truthy openAIKey = true
   /\ exists data text, read = inr data /\ Transcribed whisper text)
  /\ (uploads (handleVoiceResultsExtended encode OS webhookUrl openAIKey
                 bullet value read whisper net) <> [] ->
      truthy openAIKey = true /\ exists data, read = inr data).
Proof.
  unfold handleVoiceResultsExtended.
  destruct value as [[|audioUri others]|];
    try (split; intro H; now elim H).
  destruct (truthy openAIKey) eqn:Hkey.
  2:{ unfold convertVoiceToText. rewrite Hkey. cbn [negb].
      split; intro H; now elim H. }
  destruct (convertVoiceToText_failed openAIKey Hkey audioUri read whisper)
    as [(data & text & -> & Ht)|(Hnone & Hreq & Hup)].
  - split; intros _; (split; [reflexivity|]); [now exists data, text|].
    now exists data.
  - destruct (convertVoiceToText openAIKey audioUri read whisper)
      as [steps result].
    cbn [fst snd] in *. subst result.
    split; intro H; [now elim H|]. split; [reflexivity|now apply Hup].
Qed.

Lemma handleVoiceResults_request_needs_transcript_witness :
  truthy "sk-test" = true
  /\ exists data text,
       @inr Thrown string "AAAA" = inr data
       /\ Transcribed (Response 200 (inr "turn off")) text.
Proof.
  apply (proj1 (handleVoiceResults_request_needs_transcript
                  FormUrlEncoded.encode "ios" "https://n8n.local/hook"
                  "sk-test" "*" (Some ["file:///a.m4a"]) (inr "AAAA")
                  (Response 200 (inr "turn off")) (Response 200 (inr "")))).
  discriminate.
Defined.

(** ** Settings *)

(** X21: a setting saved is the setting loaded at the next start: after
    a successful save of a text, a successful load into the initial,
    empty state yields that text, for the webhook URL and for the key;
    into any other state it does so when the text is not empty, and an
    empty saved text leaves that state as it is. *)
Theorem settings_round_trip (store : Storage) (value state : string) :
  fst (loadWebhookUrl None (fst (saveWebhookUrl None store value)) "") = value
  /\ fst (loadOpenAIKey None (fst (saveOpenAIKey None store value)) "") = value
  /\ fst (loadWebhookUrl None (fst (saveWebhookUrl None store value)) state)
     = (if truthy value then value else state)
  /\ fst (loadOpenAIKey None (fst (saveOpenAIKey None store value)) state)
     = (if truthy value then value else state).
Proof.
  unfold loadWebhookUrl, saveWebhookUrl, loadOpenAIKey, saveOpenAIKey,
    loadSetting, saveSetting, getItem, setItem.
  cbn [fst]. rewrite !String.eqb_refl.
  destruct value; repeat split.
Qed.

(** The two settings do not disturb each other, and a storage call that
    rejects changes nothing. *)
Lemma settings_independent (store : Storage) (value state : string)
    (error : Thrown) :
  loadWebhookUrl None (fst (saveOpenAIKey None store value)) state
    = loadWebhookUrl None store state
  /\ loadOpenAIKey None (fst (saveWebhookUrl None store value)) state
     = loadOpenAIKey None store state
  /\ loadWebhookUrl (Some error) store state
     = (state, [ConsoleError "Error loading webhook URL:" error])
  /\ (forall key,
        getItem (fst (saveWebhookUrl (Some error) store value)) key
        = getItem store key).
Proof. repeat split. Qed.

(** * More on the interpreter and on the two parsers *)

(** X22: the test [hasColorCommand || !action] in front of the color
    loop never changes the outcome: on every command and from every
    state of the locals, the color step gives what the loop alone
    gives. *)
Theorem color_gate_redundant (command : string) (st : Command) :
  colorStep command st = colorLoop COLOR_VARIATIONS command st.
Proof.
  unfold colorStep.
  destruct (hasColorCommand command || negb (truthy (action st))) eqn:Hgate;
    [reflexivity|].
  apply orb_false_elim in Hgate. destruct Hgate as [Hhas _].
  unfold hasColorCommand in Hhas.
  apply orb_false_elim in Hhas. destruct Hhas as [_ Hnone].
  apply firstColor_none in Hnone.
  now rewrite colorLoop_firstColor, Hnone.
Qed.

(** X23: a transcript that contains a color synonym is never a power
    command: whatever else it says, "turn off" included, the interpreter
    answers SetColor or SetBrightness. *)
Theorem color_word_excludes_power (text : string) :
  mentionsColor (toLowerCase text) = true ->
  action (interpret text) = SetColor
  \/ action (interpret text) = SetBrightness.
Proof.
  intro Hc. rewrite interpret_lower. cbv zeta.
  destruct (_ && _); [now right|].
  destruct (firstColor (toLowerCase text)) as [c|] eqn:Hf; [now left|].
  apply firstColor_none in Hf. rewrite Hf in Hc. discriminate Hc.
Qed.

Lemma color_word_excludes_power_witness :
  action (interpret "Turn off the scarlet lamp") = SetColor
  \/ action (interpret "Turn off the scarlet lamp") = SetBrightness.
Proof.
  apply (color_word_excludes_power "Turn off the scarlet lamp").
  reflexivity.
Defined.

(** X24: the two screens disagree on a command that says "turn on" and
    also contains "off": the simple parser sends "on", for it tests the
    on phrases first, while the extended interpreter never answers
    TurnOn, for there "off" wins. *)
Theorem screens_disagree_on_off
    (encode : string -> string) (OS webhookUrl : string) (net : FetchResult)
    (command : string) :
  includes "turn on" (toLowerCase command) = true ->
  includes "off" (toLowerCase command) = true ->
  parseVoiceCommand encode OS webhookUrl net command
    = sendCommandSimple encode OS webhookUrl net "on" None
  /\ action (interpret command) <> TurnOn.
Proof.
  intros Hon Hoff. split.
  - unfold parseVoiceCommand. cbv zeta. now rewrite Hon.
  - rewrite interpret_lower. cbv zeta. rewrite Hoff.
    destruct (_ && _); [discriminate|].
    destruct (firstColor _); [discriminate|].
    destruct (powerPattern _); discriminate.
Qed.

Lemma screens_disagree_on_off_witness :
  requests (parseVoiceCommand FormUrlEncoded.encode "ios"
              "https://n8n.local/hook" (Response 200 (inr ""))
              "Turn on the coffee machine")
  = [("GET", "https://n8n.local/hook?action=on")]
  /\ interpret "Turn on the coffee machine" = mkCommand TurnOff "".
Proof.
  destruct (screens_disagree_on_off FormUrlEncoded.encode "ios"
              "https://n8n.local/hook" (Response 200 (inr ""))
              "Turn on the coffee machine" eq_refl eq_refl) as [Hp _].
  rewrite Hp. split; reflexivity.
Defined.
